(** * Stock market trend analysis: sync, cleaning, features, labels, order search

    A shallow embedding of the pipeline of the repository:
    - [data/data_cleaner.py]: [clean_stock_data], [engineer_features],
      [save_cleaned_data];
    - [models/random_forest_predictor.py]: [create_target_variable],
      [prepare_features];
    - [models/arima_forecaster.py]: [find_optimal_arima_order];
    - [data/realtime_updater.py]: [get_latest_data_date], [fetch_latest_data],
      [update_stock_data], [update_all_stocks];
    - [data/news_data_collector.py]: [clean_headline];
    - [utils/database.py]: [insert_dataframe].

    Data frames are lists of rows, a column is the list of one field.  A cell
    of a numeric column is a [float]: binary64 with its special values kept
    ([NaN], the two infinities) and its finite values taken as exact
    rationals, so rounding is left out and everything else (what a comparison
    with NaN answers, what a division by zero gives, which cells [dropna] sees
    as missing) is as pandas and numpy have it.  The statements below are
    about which cells are missing, which rows are kept and how cells
    compare, not about the digits of a quotient.

    [sort_values] is not a stable sort.  [clean_stock_data] is given with
    the sort that keeps rows of one date in their order, and again with the
    routine as a parameter ([clean_stock_data_by]), beside the routine numpy
    runs ([sort_values_quicksort]): on a frame in which no two symbols
    share a date every routine that sorts gives what the first gives
    ([clean_stock_data_by_canonical]). *)

From Stdlib Require Import String List ZArith QArith Qreduction Bool Lia Lqa
  Sorted Permutation.
Import ListNotations.
Local Open Scope Z_scope.

(** ** Floating-point cells *)

Inductive float : Type :=
| NaN
| PInf
| NInf
| Fin (q : Q).

Definition isnan (x : float) : bool :=
  match x with NaN => true | _ => false end.

Definition notnull (x : float) : bool := negb (isnan x).

Definition Qlt_bool (x y : Q) : bool := negb (Qle_bool y x).

(** [a <= b]; any comparison with NaN is false. *)
Definition fle (a b : float) : bool :=
  match a, b with
  | NaN, _ | _, NaN => false
  | NInf, _ => true
  | _, PInf => true
  | PInf, _ => false
  | _, NInf => false
  | Fin x, Fin y => Qle_bool x y
  end.

(** [a < b]; any comparison with NaN is false. *)
Definition flt (a b : float) : bool :=
  match a, b with
  | NaN, _ | _, NaN => false
  | PInf, _ => false
  | _, NInf => false
  | NInf, _ => true
  | _, PInf => true
  | Fin x, Fin y => Qlt_bool x y
  end.

(** [a == b]; NaN equals nothing. *)
Definition feq (a b : float) : bool :=
  match a, b with
  | PInf, PInf | NInf, NInf => true
  | Fin x, Fin y => Qeq_bool x y
  | _, _ => false
  end.

Definition fge (a b : float) : bool := fle b a.
Definition fgt (a b : float) : bool := flt b a.

Definition fneg (a : float) : float :=
  match a with
  | NaN => NaN
  | PInf => NInf
  | NInf => PInf
  | Fin x => Fin (Qred (- x))
  end.

Definition fadd (a b : float) : float :=
  match a, b with
  | NaN, _ | _, NaN => NaN
  | PInf, NInf | NInf, PInf => NaN
  | PInf, _ | _, PInf => PInf
  | NInf, _ | _, NInf => NInf
  | Fin x, Fin y => Fin (Qred (x + y))
  end.

Definition fsub (a b : float) : float := fadd a (fneg b).

(** The sign of a rational as an infinity, NaN for zero: what [inf * x] is. *)
Definition signed_inf (pos : bool) (x : Q) : float :=
  if Qeq_bool x 0 then NaN
  else if Qlt_bool 0 x then (if pos then PInf else NInf)
  else (if pos then NInf else PInf).

Definition fmul (a b : float) : float :=
  match a, b with
  | NaN, _ | _, NaN => NaN
  | PInf, PInf | NInf, NInf => PInf
  | PInf, NInf | NInf, PInf => NInf
  | PInf, Fin y => signed_inf true y
  | NInf, Fin y => signed_inf false y
  | Fin x, PInf => signed_inf true x
  | Fin x, NInf => signed_inf false x
  | Fin x, Fin y => Fin (Qred (x * y))
  end.

(** Division as numpy does it on float64: no exception, [x / 0] is an
    infinity of the sign of [x] and [0 / 0] is NaN (the sign of a zero is not
    tracked: it changes no result below). *)
Definition fdiv (a b : float) : float :=
  match a, b with
  | NaN, _ | _, NaN => NaN
  | PInf, Fin y => if Qlt_bool y 0 then NInf else PInf
  | NInf, Fin y => if Qlt_bool y 0 then PInf else NInf
  | PInf, _ | NInf, _ => NaN
  | Fin _, PInf | Fin _, NInf => Fin 0
  | Fin x, Fin y =>
      if Qeq_bool y 0 then signed_inf true x else Fin (Qred (x / y))
  end.

Definition fin_Z (z : Z) : float := Fin (inject_Z z).

(** ** Frames of price bars *)

(** A row of the [stocks] table: [symbol] and [date] (a day number) are never
    missing, the numeric cells may be NaN. *)
Record Bar : Type := mkBar {
  symbol : string;
  date : Z;
  open : float;
  high : float;
  low : float;
  close : float;
  volume : float
}.

Definition key (r : Bar) : string * Z := (symbol r, date r).

Definition key_eqb (k1 k2 : string * Z) : bool :=
  String.eqb (fst k1) (fst k2) && Z.eqb (snd k1) (snd k2).

Definition key_mem (k : string * Z) (seen : list (string * Z)) : bool :=
  existsb (key_eqb k) seen.

(** [df.drop_duplicates(subset=['symbol', 'date'])]: the first row of every
    key is kept, in the order of the frame. *)
Fixpoint drop_duplicates_from (seen : list (string * Z)) (df : list Bar)
  : list Bar :=
  match df with
  | [] => []
  | r :: rest =>
      if key_mem (key r) seen then drop_duplicates_from seen rest
      else r :: drop_duplicates_from (key r :: seen) rest
  end.

Definition drop_duplicates (df : list Bar) : list Bar :=
  drop_duplicates_from [] df.

(** [df.sort_values('date')]: ascending.  This is the sort that leaves rows
    of one date in their order, which is what pandas returns for a frame of
    at most 17 rows and for every frame in which no two rows share a date
    (as the rows of one symbol after [drop_duplicates]); what pandas does
    with rows of one date in a longer frame is [sort_values_quicksort]
    below. *)
Fixpoint insert_by_date (r : Bar) (sorted : list Bar) : list Bar :=
  match sorted with
  | [] => [r]
  | r' :: rest =>
      if date r <=? date r' then r :: sorted
      else r' :: insert_by_date r rest
  end.

Fixpoint sort_values_date (df : list Bar) : list Bar :=
  match df with
  | [] => []
  | r :: rest => insert_by_date r (sort_values_date rest)
  end.

(** [df.isnull().sum().sum() > 0]: some cell of the frame is missing. *)
Definition row_has_null (r : Bar) : bool :=
  isnan (open r) || isnan (high r) || isnan (low r) || isnan (close r)
  || isnan (volume r).

Definition has_missing (df : list Bar) : bool := existsb row_has_null df.

Definition fill_from (prev x : float) : float := if isnan x then prev else x.

(** [df[price_columns].fillna(method='ffill')]: every price column takes, in
    a missing cell, the last value seen above it in that column; a missing
    cell with nothing above stays missing. *)
Fixpoint ffill_prices (po ph pl pc : float) (df : list Bar) : list Bar :=
  match df with
  | [] => []
  | r :: rest =>
      let o := fill_from po (open r) in
      let h := fill_from ph (high r) in
      let l := fill_from pl (low r) in
      let c := fill_from pc (close r) in
      mkBar (symbol r) (date r) o h l c (volume r)
      :: ffill_prices o h l c rest
  end.

(** [df['volume'].fillna(0)] *)
Definition fillna_volume (df : list Bar) : list Bar :=
  map (fun r => mkBar (symbol r) (date r) (open r) (high r) (low r) (close r)
                  (if isnan (volume r) then Fin 0 else volume r)) df.

Definition handle_missing (df : list Bar) : list Bar :=
  if has_missing df
  then fillna_volume (ffill_prices NaN NaN NaN NaN df)
  else df.

(** [(df[['open', 'high', 'low', 'close']] <= 0).any(axis=1)] *)
Definition invalid_prices (r : Bar) : bool :=
  fle (open r) (Fin 0) || fle (high r) (Fin 0) || fle (low r) (Fin 0)
  || fle (close r) (Fin 0).

(** [(high >= low) & (high >= open) & (high >= close)] *)
Definition price_logic (r : Bar) : bool :=
  fge (high r) (low r) && fge (high r) (open r) && fge (high r) (close r).

(** [clean_stock_data] of [data/data_cleaner.py].  The test
    [invalid_prices.sum() > 0] before the first filter only skips a filter
    that would keep every row. *)
Definition clean_stock_data (df : list Bar) : list Bar :=
  let df := drop_duplicates df in
  let df := sort_values_date df in
  let df := handle_missing df in
  let df := if existsb invalid_prices df
            then filter (fun r => negb (invalid_prices r)) df
            else df in
  filter price_logic df.

(** ** The sort as numpy runs it *)

(** [sort_values] orders a frame by [numpy]'s [argsort] of the column with
    its default kind, ['quicksort']: an array [a] of row numbers is put in
    the order of the keys [v] in place.  A segment of more than 17 places is
    split around the median of its first, middle and last key; a segment of
    at most 17 places is sorted by insertion; a segment taken from the stack
    with its depth used up is sorted as a heap.  The routine is not stable:
    the exchanges of the split move rows of one date past one another. *)
Section Argsort.

Variable v : list Z.

(** [v[a[p]]], [a[p] = x] and the exchange of [a[p]] and [a[q]] *)
Definition key_at (a : list nat) (p : nat) : Z := nth (nth p a 0%nat) v 0.

Fixpoint set_at (p x : nat) (a : list nat) : list nat :=
  match a, p with
  | [], _ => []
  | _ :: rest, O => x :: rest
  | y :: rest, S p' => y :: set_at p' x rest
  end.

Definition swap (p q : nat) (a : list nat) : list nat :=
  set_at p (nth q a 0%nat) (set_at q (nth p a 0%nat) a).

(** [if (v[a[p]] < v[a[q]]) swap(a[p], a[q])] *)
Definition swap_if_less (p q : nat) (a : list nat) : list nat :=
  if key_at a p <? key_at a q then swap p q a else a.

(** [do ++pi; while (v[*pi] < vp)] and [do --pj; while (vp < v[*pj])] *)
Fixpoint scan_up (fuel : nat) (vp : Z) (p_i : nat) (a : list nat) : nat :=
  match fuel with
  | O => S p_i
  | S fuel' =>
      if key_at a (S p_i) <? vp then scan_up fuel' vp (S p_i) a else S p_i
  end.

Fixpoint scan_down (fuel : nat) (vp : Z) (p_j : nat) (a : list nat) : nat :=
  match fuel with
  | O => (p_j - 1)%nat
  | S fuel' =>
      if vp <? key_at a (p_j - 1)
      then scan_down fuel' vp (p_j - 1)%nat a else (p_j - 1)%nat
  end.

Fixpoint partition_loop (fuel : nat) (vp : Z) (p_i p_j : nat) (a : list nat)
  : list nat * nat :=
  match fuel with
  | O => (a, p_i)
  | S fuel' =>
      let p_i := scan_up (List.length a) vp p_i a in
      let p_j := scan_down (List.length a) vp p_j a in
      if (p_j <=? p_i)%nat then (a, p_i)
      else partition_loop fuel' vp p_i p_j (swap p_i p_j a)
  end.

(** The split of the segment from [pl] to [pr]: the median of three goes to
    [pr - 1], the two scans exchange what stands on the wrong side, and the
    median ends at the place returned. *)
Definition median_partition (pl pr : nat) (a : list nat) : list nat * nat :=
  let pm := (pl + (pr - pl) / 2)%nat in
  let a := swap_if_less pm pl a in
  let a := swap_if_less pr pm a in
  let a := swap_if_less pm pl a in
  let vp := key_at a pm in
  let a := swap pm (pr - 1) a in
  let '(a, p_i) := partition_loop (List.length a) vp pl (pr - 1)%nat a in
  (swap p_i (pr - 1) a, p_i).

(** [while (pj > pl && vp < v[*pk]) *pj-- = *pk--;] and then [*pj = vi] *)
Fixpoint sift_left (fuel : nat) (pl p_j vi : nat) (a : list nat) : list nat :=
  match fuel with
  | O => set_at p_j vi a
  | S fuel' =>
      if (pl <? p_j)%nat && (nth vi v 0 <? key_at a (p_j - 1))
      then sift_left fuel' pl (p_j - 1)%nat vi
             (set_at p_j (nth (p_j - 1) a 0%nat) a)
      else set_at p_j vi a
  end.

Fixpoint insertion_from (count p_i pl : nat) (a : list nat) : list nat :=
  match count with
  | O => a
  | S count' =>
      insertion_from count' (S p_i) pl
        (sift_left p_i pl p_i (nth p_i a 0%nat) a)
  end.

Definition insertion_sort (pl pr : nat) (a : list nat) : list nat :=
  insertion_from (pr - pl) (S pl) pl a.

(** The heap sort of the [n] places from [pl] on, which the routine counts
    from 1. *)
Definition place (pl i : nat) : nat := (pl + i - 1)%nat.

Fixpoint sift_down (fuel : nat) (pl n i j tmp : nat) (a : list nat)
  : list nat :=
  match fuel with
  | O => set_at (place pl i) tmp a
  | S fuel' =>
      if (j <=? n)%nat then
        let j := if (j <? n)%nat
                    && (key_at a (place pl j) <? key_at a (place pl (j + 1)))
                 then (j + 1)%nat else j in
        if nth tmp v 0 <? key_at a (place pl j)
        then sift_down fuel' pl n j (j + j)%nat tmp
               (set_at (place pl i) (nth (place pl j) a 0%nat) a)
        else set_at (place pl i) tmp a
      else set_at (place pl i) tmp a
  end.

Fixpoint heapify (l pl n : nat) (a : list nat) : list nat :=
  match l with
  | O => a
  | S l' =>
      heapify l' pl n
        (sift_down n pl n l (l + l)%nat (nth (place pl l) a 0%nat) a)
  end.

Fixpoint heap_pops (n pl : nat) (a : list nat) : list nat :=
  match n with
  | O => a
  | S n' =>
      if (1 <? n)%nat then
        let tmp := nth (place pl n) a 0%nat in
        let a := set_at (place pl n) (nth (place pl 1) a 0%nat) a in
        heap_pops n' pl (sift_down n pl n' 1 2 tmp a)
      else a
  end.

Definition aheapsort (pl n : nat) (a : list nat) : list nat :=
  heap_pops n pl (heapify (n / 2) pl n a).

(** The loop over the segments.  [popped] tells a segment taken from the
    stack, the only place where the depth is looked at, from the segment
    the loop goes on with after a split; the smaller part of a split is the
    one it goes on with, and both parts take the depth less one. *)
Fixpoint quicksort_loop (fuel : nat) (popped : bool) (pl pr : nat)
    (cdepth : Z) (a : list nat) : list nat :=
  match fuel with
  | O => a
  | S fuel' =>
      if popped && (cdepth <? 0) then aheapsort pl (pr - pl + 1) a
      else if (16 <? pr - pl)%nat then
        let '(a, p_i) := median_partition pl pr a in
        let cdepth := cdepth - 1 in
        if (p_i - pl <? pr - p_i)%nat
        then quicksort_loop fuel' true (p_i + 1) pr cdepth
               (quicksort_loop fuel' false pl (p_i - 1) cdepth a)
        else quicksort_loop fuel' true pl (p_i - 1) cdepth
               (quicksort_loop fuel' false (p_i + 1) pr cdepth a)
      else insertion_sort pl pr a
  end.

(** [v.argsort(kind='quicksort')]: the row numbers in the order of their
    keys; the depth allowed is twice the position of the highest bit of the
    length. *)
Definition argsort_quicksort : list nat :=
  let num := List.length v in
  match num with
  | O => []
  | S last =>
      quicksort_loop num true 0 last (2 * Z.log2 (Z.of_nat num)) (seq 0 num)
  end.

End Argsort.

(** [df.take(indexer)] *)
Definition take (indexer : list nat) (df : list Bar) : list Bar :=
  flat_map (fun i => match nth_error df i with
                     | Some r => [r]
                     | None => []
                     end)
           indexer.

Definition sort_values_quicksort (df : list Bar) : list Bar :=
  take (argsort_quicksort (map date df)) df.

(** [clean_stock_data] with the routine behind [sort_values] as a
    parameter: the steps are those of [clean_stock_data] above. *)
Definition clean_stock_data_by (sort_values : list Bar -> list Bar)
    (df : list Bar) : list Bar :=
  let df := drop_duplicates df in
  let df := sort_values df in
  let df := handle_missing df in
  let df := if existsb invalid_prices df
            then filter (fun r => negb (invalid_prices r)) df
            else df in
  filter price_logic df.

(** ** Feature engineering *)

(** [config.py]: the loop of [engineer_features] over these periods adds
    the columns [ma_5], [ma_10] and [ma_20]. *)
Definition MOVING_AVERAGE_PERIODS : list nat := [5; 10; 20]%nat.

Definition fsum (xs : list float) : float := fold_left fadd xs (Fin 0).

(** The [w] cells of a column that end at position [i]. *)
Definition window (w i : nat) (xs : list float) : list float :=
  firstn w (skipn (i + 1 - w) xs).

(** [col.rolling(window=w).agg()]: missing until [w] cells are there, and
    missing when one of the [w] cells is ([min_periods] is [w]); else the
    aggregate of the [w] cells, which is what the running sums of pandas
    come to without rounding. *)
Definition rolling (w : nat) (agg : list float -> float) (xs : list float)
  : list float :=
  map (fun i => if (i + 1 <? w)%nat then NaN
                else if existsb isnan (window w i xs) then NaN
                else agg (window w i xs))
      (seq 0 (length xs)).

Definition mean (xs : list float) : float :=
  fdiv (fsum xs) (fin_Z (Z.of_nat (length xs))).

(** [col.shift(1)] and [col.diff()] *)
Definition shift1 (xs : list float) : list float :=
  match xs with
  | [] => []
  | _ => NaN :: removelast xs
  end.

Definition zip_with (f : float -> float -> float) (xs ys : list float)
  : list float :=
  map (fun p => f (fst p) (snd p)) (combine xs ys).

Definition diff (xs : list float) : list float :=
  zip_with fsub xs (shift1 xs).

(** What forward filling does to one column, from the value [prev] carried
    into it. *)
Fixpoint ffill_col (prev : float) (xs : list float) : list float :=
  match xs with
  | [] => []
  | x :: rest => let v := fill_from prev x in v :: ffill_col v rest
  end.

(** [col.pct_change()]: the column is padded first ([fill_method='pad'],
    the default of the pandas versions that still take
    [fillna(method='ffill')]), then [data / data.shift(1) - 1]. *)
Definition pct_change (xs : list float) : list float :=
  let data := ffill_col NaN xs in
  map (fun x => fsub x (Fin 1)) (zip_with fdiv data (shift1 data)).

Section Features.

(** [np.sqrt] on the finite values: the square root of a rational is not
    one in general, so it is left as a parameter. *)
Variable sqrtQ : Q -> Q.

Definition fsqrt (x : float) : float :=
  match x with
  | NaN | NInf => NaN
  | PInf => PInf
  | Fin q => if Qlt_bool q 0 then NaN else Fin (sqrtQ q)
  end.

(** Sample standard deviation ([ddof=1]) of a window. *)
Definition std (xs : list float) : float :=
  let m := mean xs in
  let sq := map (fun x => fmul (fsub x m) (fsub x m)) xs in
  fsqrt (fdiv (fsum sq) (fin_Z (Z.of_nat (length xs) - 1))).

(** A row of the frame [engineer_features] returns. *)
Record FeatRow : Type := mkFeatRow {
  bar : Bar;
  ma_5 : float;
  ma_10 : float;
  ma_20 : float;
  daily_return : float;
  price_range : float;
  price_range_pct : float;
  volume_ma_5 : float;
  volatility_5 : float;
  volatility_10 : float;
  rsi : float
}.

Definition ma (period : nat) (df : list Bar) : list float :=
  rolling period mean (map close df).

Definition daily_return_col (df : list Bar) : list float :=
  map (fun x => fmul x (Fin 100)) (pct_change (map close df)).

Definition price_range_col (df : list Bar) : list float :=
  map (fun r => fsub (high r) (low r)) df.

Definition price_range_pct_col (df : list Bar) : list float :=
  map (fun p => fmul (fdiv (fst p) (snd p)) (Fin 100))
      (combine (price_range_col df) (map close df)).

(** [delta.where(delta > 0, 0)] and [-delta.where(delta < 0, 0)] *)
Definition gains (delta : list float) : list float :=
  map (fun d => if fgt d (Fin 0) then d else Fin 0) delta.

Definition losses (delta : list float) : list float :=
  map (fun d => fneg (if flt d (Fin 0) then d else Fin 0)) delta.

Definition avg_gain (closes : list float) : list float :=
  rolling 14 mean (gains (diff closes)).

Definition avg_loss (closes : list float) : list float :=
  rolling 14 mean (losses (diff closes)).

Definition rsi_of (gain loss : float) : float :=
  let rs := fdiv gain loss in
  fsub (Fin 100) (fdiv (Fin 100) (fadd (Fin 1) rs)).

Definition rsi_col (closes : list float) : list float :=
  zip_with rsi_of (avg_gain closes) (avg_loss closes).

Definition cell (col : list float) (i : nat) : float := nth i col NaN.

(** [engineer_features] of [data/data_cleaner.py]: every column is computed
    on the whole frame and laid beside the bars, row for row. *)
Definition engineer_features (df : list Bar) : list FeatRow :=
  let col_ma_5 := ma 5 df in
  let col_ma_10 := ma 10 df in
  let col_ma_20 := ma 20 df in
  let col_daily_return := daily_return_col df in
  let col_price_range := price_range_col df in
  let col_price_range_pct := price_range_pct_col df in
  let col_volume_ma_5 := rolling 5 mean (map volume df) in
  let col_volatility_5 := rolling 5 std col_daily_return in
  let col_volatility_10 := rolling 10 std col_daily_return in
  let col_rsi := rsi_col (map close df) in
  map (fun i =>
         mkFeatRow (nth i df (mkBar EmptyString 0 NaN NaN NaN NaN NaN))
           (cell col_ma_5 i) (cell col_ma_10 i) (cell col_ma_20 i)
           (cell col_daily_return i)
           (cell col_price_range i) (cell col_price_range_pct i)
           (cell col_volume_ma_5 i)
           (cell col_volatility_5 i) (cell col_volatility_10 i)
           (cell col_rsi i))
      (seq 0 (List.length df)).

(** A row of the [stocks_clean] table. *)
Record CleanRow : Type := mkCleanRow {
  c_symbol : string;
  c_date : Z;
  c_open : float;
  c_high : float;
  c_low : float;
  c_close : float;
  c_volume : float;
  c_ma_5 : float;
  c_ma_10 : float;
  c_ma_20 : float;
  c_daily_return : float
}.

(** [df.dropna()]: a row stays when no cell of any column is missing. *)
Definition row_complete (r : FeatRow) : bool :=
  negb (row_has_null (bar r))
  && notnull (ma_5 r) && notnull (ma_10 r) && notnull (ma_20 r)
  && notnull (daily_return r)
  && notnull (price_range r) && notnull (price_range_pct r)
  && notnull (volume_ma_5 r)
  && notnull (volatility_5 r) && notnull (volatility_10 r)
  && notnull (rsi r).

Definition dropna (df : list FeatRow) : list FeatRow :=
  filter row_complete df.

(** [df[columns_to_save]] *)
Definition to_save (r : FeatRow) : CleanRow :=
  let b := bar r in
  mkCleanRow (symbol b) (date b) (open b) (high b) (low b) (close b)
    (volume b) (ma_5 r) (ma_10 r) (ma_20 r) (daily_return r).

Definition c_key (r : CleanRow) : string * Z := (c_symbol r, c_date r).

Fixpoint drop_duplicates_clean_from (seen : list (string * Z))
    (df : list CleanRow) : list CleanRow :=
  match df with
  | [] => []
  | r :: rest =>
      if key_mem (c_key r) seen then drop_duplicates_clean_from seen rest
      else r :: drop_duplicates_clean_from (c_key r :: seen) rest
  end.

End Features.

Definition drop_duplicates_clean (df : list CleanRow) : list CleanRow :=
  drop_duplicates_clean_from [] df.

(** ** Label constructor *)

(** [col.shift(k)]: cell [i] takes cell [i - k], missing outside the frame. *)
Definition shift (k : Z) (xs : list float) : list float :=
  map (fun i => let j := Z.of_nat i - k in
                if j <? 0 then NaN else nth (Z.to_nat j) xs NaN)
      (seq 0 (List.length xs)).

(** [bool_col.astype(int)] *)
Definition astype_int (b : bool) : Z := if b then 1 else 0.

(** A cell of an int64 column is never missing. *)
Definition int_notnull (_ : Z) : bool := true.

Section Labels.

(** The frame handed to [create_target_variable] has more columns than the
    label needs; only [close] is read. *)
Variable Row : Type.
Variable close_of : Row -> float.

Record Labeled : Type := mkLabeled {
  features : Row;
  future_price : float;
  price_change_pct : float;
  target : Z
}.

(** [create_target_variable] of [models/random_forest_predictor.py] *)
Definition create_target_variable (df : list Row) (days_ahead : Z)
  : list Labeled :=
  let future := shift (- days_ahead) (map close_of df) in
  let df :=
    map (fun p =>
           let c := close_of (fst p) in
           let pct := fmul (fdiv (fsub (snd p) c) c) (Fin 100) in
           mkLabeled (fst p) (snd p) pct (astype_int (fgt pct (Fin 2))))
        (combine df future) in
  (* df.dropna(subset=['target']) *)
  filter (fun r => int_notnull (target r)) df.

End Labels.

Arguments mkLabeled {Row}.
Arguments features {Row}.
Arguments future_price {Row}.
Arguments price_change_pct {Row}.
Arguments target {Row}.
Arguments create_target_variable {Row}.

(** ** Order selector *)

Definition order : Type := (Z * Z * Z)%type.

Definition ARIMA_ORDER : order := (1, 1, 1).

(** [range(0, n)] *)
Definition range0 (n : Z) : list Z := map Z.of_nat (seq 0 (Z.to_nat n)).

Section OrderSelector.

(** [ARIMA(timeseries, order=(p, d, q)).fit().aic], or [None] when building
    or fitting the model raises. *)
Variable fit_aic : list float -> order -> option float.

Definition try_candidate (timeseries : list float)
    (best : float * option order) (c : order) : float * option order :=
  match fit_aic timeseries c with
  | Some aic => if flt aic (fst best) then (aic, Some c) else best
  | None => best
  end.

(** The three nested loops, carrying [(best_aic, best_order)]. *)
Definition grid_search (timeseries : list float) (max_p max_d max_q : Z)
  : float * option order :=
  fold_left (fun best p =>
    fold_left (fun best d =>
      fold_left (fun best q => try_candidate timeseries best (p, d, q))
                (range0 (max_q + 1)) best)
      (range0 (max_d + 1)) best)
    (range0 (max_p + 1)) (PInf, None).

(** [find_optimal_arima_order] of [models/arima_forecaster.py] *)
Definition find_optimal_arima_order (timeseries : list float)
    (max_p max_d max_q : Z) : order :=
  match snd (grid_search timeseries max_p max_d max_q) with
  | None => ARIMA_ORDER
  | Some best_order => best_order
  end.

End OrderSelector.

(** The candidates in the order the loops visit them. *)
Definition grid (max_p max_d max_q : Z) : list order :=
  flat_map (fun p =>
    flat_map (fun d => map (fun q => (p, d, q)) (range0 (max_q + 1)))
             (range0 (max_d + 1)))
    (range0 (max_p + 1)).

Definition order_lt (a b : order) : Prop :=
  let '(p, d, q) := a in
  let '(p', d', q') := b in
  p < p' \/ (p = p' /\ (d < d' \/ (d = d' /\ q < q'))).

(** ** The store, the provider and the sync controller *)

Definition MAX_DAYS_BACK : Z := 365.

Definition TOP_50_TICKERS : list string :=
  ["AAPL"; "MSFT"; "GOOGL"; "AMZN"; "NVDA"; "META"; "TSLA"; "BRK.B"; "UNH";
   "JPM"; "V"; "XOM"; "LLY"; "AVGO"; "JNJ"; "WMT"; "MA"; "PG"; "CVX"; "MRK";
   "HD"; "COST"; "ABBV"; "ADBE"; "PEP"; "BAC"; "KO"; "PFE"; "NFLX"; "TMO";
   "DIS"; "ABT"; "CSCO"; "MCD"; "CRM"; "ACN"; "DHR"; "LIN"; "VZ"; "WFC";
   "INTC"; "TXN"; "NEE"; "PM"; "BMY"; "UNP"; "HON"; "ORCL"; "AMGN";
   "IBM"]%string.

Inductive table : Type := T_stocks | T_stocks_clean.

Definition frame (t : table) : Type :=
  match t with
  | T_stocks => list Bar
  | T_stocks_clean => list CleanRow
  end.

Definition frame_len (t : table) : frame t -> nat :=
  match t with
  | T_stocks => @List.length Bar
  | T_stocks_clean => @List.length CleanRow
  end.

Inductive exn : Type := ProviderError | DatabaseError.

Inductive result (A : Type) : Type :=
| Ok (a : A)
| Raise (e : exn).

Arguments Ok {A}.
Arguments Raise {A}.

Inductive level : Type := INFO | WARNING | ERROR.

(** The messages of the [logger] calls, one constructor per call site. *)
Inductive msg : Type :=
| ErrExecutingQuery
| ErrLatestDate (symbol : string)
| Fetching (symbol : string) (start_date end_date : Z)
| NoNewDataFound (symbol : string)
| Fetched (n : nat) (symbol : string)
| ErrFetching (symbol : string)
| NoExistingData (symbol : string)
| UpToDate (symbol : string) (latest : Z)
| DaysOld (symbol : string) (days : Z)
| NoNewDataAvailable (symbol : string)
| Updated (symbol : string) (n : nat)
| ErrUpdating (symbol : string)
| Inserted (n : nat) (t : table)
| ErrInserting (t : table)
| StartingUpdate (force_update : bool)
| Processing (symbol : string) (i total : nat)
| UpdateCompleted (success_count total_count : nat)
| SavedCleaned (n : nat) (symbol : string)
| NoCleanedData (symbol : string)
| ErrSaving.

(** What the code reads and writes: both tables with their rows in insertion
    order (the key of a table is its [id] column, so nothing stops two rows of
    one symbol and date), the calls made to the provider and the log, newest
    first. *)
Record World : Type := mkWorld {
  stocks : list Bar;
  stocks_clean : list CleanRow;
  requests : list (string * Z * Z);
  logs : list (level * msg)
}.

(** What the code does not decide: the day it runs, what the provider answers
    to [history(start, end)] for a symbol, and whether the database fails. *)
Record Env : Type := mkEnv {
  today : Z;
  provider : string -> Z -> Z -> result (list Bar);
  execute_raises : bool;
  to_sql_raises : table -> bool
}.

(** State and exceptions: a raise keeps the state reached so far. *)
Definition M (A : Type) : Type := World -> result A * World.

Definition ret {A : Type} (a : A) : M A := fun w => (Ok a, w).

Definition bind {A B : Type} (m : M A) (k : A -> M B) : M B :=
  fun w => match m w with
           | (Ok a, w') => k a w'
           | (Raise e, w') => (Raise e, w')
           end.

Definition raise {A : Type} (e : exn) : M A := fun w => (Raise e, w).

(** [try: m except Exception as e: h e] *)
Definition try_except {A : Type} (m : M A) (h : exn -> M A) : M A :=
  fun w => match m w with
           | (Ok a, w') => (Ok a, w')
           | (Raise e, w') => h e w'
           end.

Notation "x <- m ;; k" := (bind m (fun x => k))
  (at level 61, m at next level, right associativity).
Notation "m ;; k" := (bind m (fun _ => k))
  (at level 61, right associativity).

Definition logger (l : level) (m : msg) : M unit :=
  fun w => (Ok tt, mkWorld (stocks w) (stocks_clean w) (requests w)
                     ((l, m) :: logs w)).

(** [MAX(date)] over the rows of a symbol, [None] when it has none. *)
Definition max_date (s : string) (rows : list Bar) : option Z :=
  fold_left (fun acc r =>
               if String.eqb (symbol r) s
               then Some (match acc with
                          | None => date r
                          | Some d => Z.max d (date r)
                          end)
               else acc)
            rows None.

Section Sync.

Variable env : Env.

(** [execute_query] of [utils/database.py], for the one query of
    [get_latest_data_date]. *)
Definition execute_query_max_date (s : string) : M (option Z) :=
  try_except
    (fun w => if execute_raises env then (Raise DatabaseError, w)
              else (Ok (max_date s (stocks w)), w))
    (fun e => logger ERROR ErrExecutingQuery ;; raise e).

Definition get_latest_data_date (s : string) : M (option Z) :=
  try_except
    (execute_query_max_date s)
    (fun _ => logger ERROR (ErrLatestDate s) ;; ret None).

(** [df.to_sql(table_name, engine, if_exists='append', index=False)] *)
Definition to_sql_append (t : table) (df : frame t) : M unit :=
  fun w =>
    if to_sql_raises env t then (Raise DatabaseError, w)
    else (Ok tt,
          match t return frame t -> World with
          | T_stocks => fun df =>
              mkWorld (stocks w ++ df) (stocks_clean w) (requests w) (logs w)
          | T_stocks_clean => fun df =>
              mkWorld (stocks w) (stocks_clean w ++ df) (requests w) (logs w)
          end df).

(** [insert_dataframe] of [utils/database.py] *)
Definition insert_dataframe (t : table) (df : frame t) : M unit :=
  try_except
    (to_sql_append t df ;;
     logger INFO (Inserted (frame_len t df) t))
    (fun e => logger ERROR (ErrInserting t) ;; raise e).

(** [yf.Ticker(symbol).history(start=start_date, end=end_date)] *)
Definition history (s : string) (start_date end_date : Z) : M (list Bar) :=
  fun w =>
    (provider env s start_date end_date,
     mkWorld (stocks w) (stocks_clean w)
       ((s, start_date, end_date) :: requests w) (logs w)).

Definition set_symbol (s : string) (r : Bar) : Bar :=
  mkBar s (date r) (open r) (high r) (low r) (close r) (volume r).

Definition empty {A : Type} (df : list A) : bool :=
  match df with [] => true | _ => false end.

(** [fetch_latest_data] of [data/realtime_updater.py] *)
Definition fetch_latest_data (s : string) (days_back : Z) : M (list Bar) :=
  try_except
    (let end_date := today env in
     let start_date := end_date - days_back in
     logger INFO (Fetching s start_date end_date) ;;
     data <- history s start_date (end_date + 1) ;;
     if empty data then
       logger WARNING (NoNewDataFound s) ;;
       ret []
     else
       let data := map (set_symbol s) data in
       logger INFO (Fetched (List.length data) s) ;;
       ret data)
    (fun _ => logger ERROR (ErrFetching s) ;; ret []).

(** The part of [update_stock_data] after [days_back] is known. *)
Definition fetch_and_insert (s : string) (days_back : Z) : M bool :=
  new_data <- fetch_latest_data s days_back ;;
  if empty new_data then
    logger WARNING (NoNewDataAvailable s) ;;
    ret false
  else
    let new_data := drop_duplicates new_data in
    insert_dataframe T_stocks new_data ;;
    logger INFO (Updated s (List.length new_data)) ;;
    ret true.

(** [update_stock_data] of [data/realtime_updater.py] *)
Definition update_stock_data (s : string) (force_update : bool) : M bool :=
  try_except
    (latest_db_date <- get_latest_data_date s ;;
     let today := today env in
     match latest_db_date with
     | None =>
         logger INFO (NoExistingData s) ;;
         fetch_and_insert s MAX_DAYS_BACK
     | Some latest =>
         let days_since_update := today - latest in
         if (days_since_update =? 0) && negb force_update then
           logger INFO (UpToDate s latest) ;;
           ret true
         else
           (if (days_since_update >? 7) && negb force_update
            then logger INFO (DaysOld s days_since_update)
            else ret tt) ;;
           fetch_and_insert s (Z.min (days_since_update + 2) MAX_DAYS_BACK)
     end)
    (fun _ => logger ERROR (ErrUpdating s) ;; ret false).

(** The loop of [update_all_stocks], from ticker number [i], carrying
    [success_count]. *)
Fixpoint update_loop (force_update : bool) (total_count i : nat)
    (tickers : list string) (success_count : nat) : M nat :=
  match tickers with
  | [] => ret success_count
  | s :: rest =>
      logger INFO (Processing s i total_count) ;;
      ok <- update_stock_data s force_update ;;
      update_loop force_update total_count (S i) rest
        (if ok then S success_count else success_count)
  end.

(** [update_all_stocks] of [data/realtime_updater.py], over the configured
    list of tickers; the pause between two symbols does nothing here. *)
Definition update_all_stocks (tickers : list string) (force_update : bool)
  : M unit :=
  logger INFO (StartingUpdate force_update) ;;
  let total_count := List.length tickers in
  success_count <- update_loop force_update total_count 1 tickers 0%nat ;;
  logger INFO (UpdateCompleted success_count total_count).

(** [save_cleaned_data] of [data/data_cleaner.py] *)
Definition save_cleaned_data (df : list FeatRow) (s : string) : M unit :=
  try_except
    (if negb (empty df) then
       let df := dropna df in
       let df_to_save := map to_save df in
       let df_to_save := drop_duplicates_clean df_to_save in
       insert_dataframe T_stocks_clean df_to_save ;;
       logger INFO (SavedCleaned (List.length df_to_save) s)
     else
       logger WARNING (NoCleanedData s))
    (fun e => logger ERROR ErrSaving ;; raise e).

End Sync.

(** ** Predicates of the specification *)

(** The invariants of a price bar: positive prices, [high] on top. *)
Definition valid_bar (r : Bar) : Prop :=
  fgt (open r) (Fin 0) = true /\ fgt (high r) (Fin 0) = true /\
  fgt (low r) (Fin 0) = true /\ fgt (close r) (Fin 0) = true /\
  fge (high r) (low r) = true /\ fge (high r) (open r) = true /\
  fge (high r) (close r) = true.

Definition sorted_by_date (df : list Bar) : Prop :=
  StronglySorted Z.le (map date df).

Definition no_duplicate_keys (df : list Bar) : Prop := NoDup (map key df).

(** The frame as it reaches the two filters of [clean_stock_data]. *)
Definition before_filters (df : list Bar) : list Bar :=
  handle_missing (sort_values_date (drop_duplicates df)).

(** A row the filters of [clean_stock_data] reject. *)
Definition rejected (r : Bar) : bool :=
  invalid_prices r || negb (price_logic r).

(** A cell that is not negative: a rational at least 0 or plus infinity. *)
Definition nonneg (x : float) : Prop :=
  x = PInf \/ exists q, x = Fin q /\ (0 <= q)%Q.

(** A cell that holds a number between 0 and 100. *)
Definition in_0_100 (x : float) : Prop :=
  exists q, x = Fin q /\ (0 <= q)%Q /\ (q <= 100)%Q.

(** The latest stored date as a sync sees it: none when the query fails. *)
Definition stored_latest (env : Env) (s : string) (w : World) : option Z :=
  if execute_raises env then None else max_date s (stocks w).

(** The window of section 4.1 of the spec, in days before today: the full
    lookback when no date is stored, no fetch ([None]) when the stored date
    is today and the sync is not forced, else the days since the stored date
    plus a buffer of 2, capped by the lookback. *)
Definition spec_window (env : Env) (s : string) (force : bool) (w : World)
  : option Z :=
  match stored_latest env s w with
  | None => Some MAX_DAYS_BACK
  | Some latest =>
      let days_since := today env - latest in
      if (days_since =? 0) && negb force then None
      else Some (Z.min (days_since + 2) MAX_DAYS_BACK)
  end.

(** A symbol fails at the provider: a fetch is due and the provider
    raises. *)
Definition provider_raises (env : Env) (force : bool) (w : World)
    (s : string) : bool :=
  match spec_window env s force w with
  | None => false
  | Some k =>
      match provider env s (today env - k) (today env + 1) with
      | Raise _ => true
      | Ok _ => false
      end
  end.

(** The provider has nothing for a symbol: a fetch is due and the answer
    holds no row. *)
Definition provider_empty (env : Env) (force : bool) (w : World)
    (s : string) : bool :=
  match spec_window env s force w with
  | None => false
  | Some k =>
      match provider env s (today env - k) (today env + 1) with
      | Ok [] => true
      | _ => false
      end
  end.

(** A fetch is due and comes back without a row, for the one reason or the
    other: [fetch_latest_data] turns an error of the provider into an empty
    frame. *)
Definition no_rows_fetched (env : Env) (force : bool) (w : World)
    (s : string) : bool :=
  match spec_window env s force w with
  | None => false
  | Some k =>
      match provider env s (today env - k) (today env + 1) with
      | Ok (_ :: _) => false
      | _ => true
      end
  end.

(** The log entries by which [update_stock_data] reports a failed symbol. *)
Definition failure_logged (e : level * msg) : bool :=
  match e with
  | (WARNING, NoNewDataAvailable _) => true
  | (ERROR, ErrUpdating _) => true
  | _ => false
  end.

Definition count_failures (entries : list (level * msg)) : nat :=
  List.length (filter failure_logged entries).

(** The symbols of the [Processing] entries, oldest first. *)
Definition processed (entries : list (level * msg)) : list string :=
  flat_map (fun e => match e with
                     | (INFO, Processing s _ _) => [s]
                     | _ => []
                     end)
           (rev entries).

(** What the grid search holds after the candidates [visited]: nothing yet
    when no fit gave an AIC below infinity, else a candidate whose AIC no
    earlier candidate reaches and no later candidate beats. *)
Definition search_inv (fit : order -> option float) (visited : list order)
    (best : float * option order) : Prop :=
  match snd best with
  | None =>
      fst best = PInf
      /\ forall c a, In c visited -> fit c = Some a -> flt a PInf = false
  | Some b =>
      exists before after,
        visited = before ++ b :: after
        /\ fit b = Some (fst best)
        /\ (forall c a, In c before -> fit c = Some a ->
                        fle a (fst best) = false)
        /\ (forall c a, In c after -> fit c = Some a ->
                        flt a (fst best) = false)
  end.

(** A complete row of the stored table: the four engineered columns are
    there. *)
Definition features_notnull (row : CleanRow) : Prop :=
  notnull (c_ma_5 row) = true /\ notnull (c_ma_10 row) = true
  /\ notnull (c_ma_20 row) = true /\ notnull (c_daily_return row) = true.

(** ** Sample inputs *)

(** [n] days of one symbol from day 1 on, the four prices of day [i] all
    at [price i]. *)
Definition sample_bars (price : nat -> Z) (n : nat) : list Bar :=
  map (fun i => let p := fin_Z (price i) in
                mkBar "AAPL" (Z.of_nat i) p p p p (fin_Z 1000))
      (seq 1 n).

Definition flat_bars : list Bar := sample_bars (fun _ => 100) 15.

Definition rising_bars : list Bar :=
  sample_bars (fun i => 100 + Z.of_nat i) 15.

(** Two fitting routines to run the order selector on: one for which
    only (1, 1, 1) can be fitted, one for which nothing can. *)
Definition fit_only_111 (_ : list float) (c : order) : option float :=
  let '(p, d, q) := c in
  if (p =? 1) && (d =? 1) && (q =? 1) then Some (Fin 5) else None.


(** Worlds and environments to run the sync on: a bar of AAPL for a day,
    a world holding some rows of [stocks] and nothing else, an environment
    with a working database whose provider gives one answer whatever the
    symbol and the window, and one where MSFT raises at the provider, GOOGL
    has no rows and the other symbols have a bar for day 9. *)
Definition sample_bar (d : Z) : Bar :=
  mkBar "AAPL" d (fin_Z 100) (fin_Z 101) (fin_Z 99) (fin_Z 100) (fin_Z 1000).

Definition world_with (rows : list Bar) : World := mkWorld rows [] [] [].

Definition env_answering (day : Z) (answer : result (list Bar)) : Env :=
  mkEnv day (fun _ _ _ => answer) false (fun _ => false).

Definition env_two_failing (day : Z) : Env :=
  mkEnv day
    (fun s _ _ =>
       if String.eqb s "MSFT" then Raise ProviderError
       else if String.eqb s "GOOGL" then Ok []
       else Ok [sample_bar 9])
    false (fun _ => false).

(** Twenty-five rising days of one symbol. *)
Definition rising_bars_25 : list Bar :=
  sample_bars (fun i => 100 + Z.of_nat i) 25.

(** ** Predicates for the store *)

(** The greater of two optional dates, [None] standing for no date. *)
Definition later_of (a b : option Z) : option Z :=
  match a, b with
  | None, x => x
  | x, None => x
  | Some d1, Some d2 => Some (Z.max d1 d2)
  end.

(** [old] is the beginning of [new]: rows were added after it, none removed
    or changed. *)
Definition grown_from (old new : list Bar) : Prop :=
  exists added, new = old ++ added.

(** An environment whose database refuses every write, with a provider
    that gives one answer whatever the symbol and the window. *)
Definition env_store_down (day : Z) (answer : result (list Bar)) : Env :=
  mkEnv day (fun _ _ _ => answer) false (fun _ => true).


(** ** Predicates for the missing values *)




(** ** Predicates for the features *)

(** The bars of the test of the daily returns: the closes 100, 102, 98. *)
Definition test_return_bars : list Bar :=
  [sample_bar 1;
   mkBar "AAPL" 2 (fin_Z 102) (fin_Z 104) (fin_Z 100) (fin_Z 102) (fin_Z 1000);
   mkBar "AAPL" 3 (fin_Z 98) (fin_Z 100) (fin_Z 96) (fin_Z 98) (fin_Z 1000)].

(** An environment whose database refuses every write to [stocks_clean]
    only. *)
Definition env_clean_store_down (day : Z) : Env :=
  mkEnv day (fun _ _ _ => Ok [])
    false (fun t => match t with T_stocks_clean => true | _ => false end).

(** A fitting routine whose AIC is 10 for the default order and 7 for
    (2, 1, 0), and which fails on every other order. *)
Definition fit_two_orders (_ : list float) (c : order) : option float :=
  let '(p, d, q) := c in
  if (p =? 1) && (d =? 1) && (q =? 1) then Some (Fin 10)
  else if (p =? 2) && (d =? 1) && (q =? 0) then Some (Fin 7)
  else None.

(** ** Preparing the features of the classifier *)

(** A frame read by columns, as [prepare_features] reads it: the names of
    the columns, distinct, each with its cells. *)
Definition ColumnFrame : Type := list (string * list float).

Definition columns (df : ColumnFrame) : list string := map fst df.

(** [df[name]]: the cells of a column, [None] for a name the frame does
    not have (a [KeyError]). *)
Definition column (name : string) (df : ColumnFrame) : option (list float) :=
  option_map snd (find (fun c => String.eqb (fst c) name) df).

Definition FEATURE_COLUMNS : list string :=
  ["open"; "high"; "low"; "close"; "volume"; "ma_5"; "ma_10"; "ma_20";
   "daily_return"; "avg_sentiment"; "news_count"; "positive_count";
   "negative_count"]%string.

(** [a[mask]]: the entries of [a] at the places where [mask] is true. *)
Definition apply_mask {A : Type} (mask : list bool) (a : list A) : list A :=
  map snd (filter fst (combine mask a)).

(** [prepare_features] of [models/random_forest_predictor.py], without its
    log lines: [None] when it raises, which it does for a frame without a
    [target] column. *)
Definition prepare_features (df : ColumnFrame)
  : option (list (list float) * list float * list string) :=
  let available_features :=
    filter (fun col => existsb (String.eqb col) (columns df))
           FEATURE_COLUMNS in
  let selected :=
    map (fun name => match column name df with
                     | Some cells => cells
                     | None => []
                     end)
        available_features in
  match column "target" df with
  | None => None
  | Some y =>
      (* X = df[available_features].values: one row per row of the frame *)
      let X := map (fun i => map (fun cells => nth i cells NaN) selected)
                   (seq 0 (List.length y)) in
      (* mask = ~np.isnan(X).any(axis=1) *)
      let mask := map (fun row => negb (existsb isnan row)) X in
      Some (apply_mask mask X, apply_mask mask y, available_features)
  end.

(** A labelled frame of three rows, the second without its moving
    average. *)
Definition labelled_frame : ColumnFrame :=
  [("close"%string, [fin_Z 100; fin_Z 102; fin_Z 105]);
   ("ma_5"%string, [fin_Z 99; NaN; fin_Z 101]);
   ("future_price"%string, [fin_Z 105; NaN; NaN]);
   ("target"%string, [Fin 1; Fin 0; Fin 0])].

(** The names [prepare_features] selects, and the cells of row [i] of the
    frame in the selected columns. *)
Definition available_features (df : ColumnFrame) : list string :=
  filter (fun col => existsb (String.eqb col) (columns df)) FEATURE_COLUMNS.

Definition feature_row (df : ColumnFrame) (i : nat) : list float :=
  map (fun name => cell (match column name df with
                         | Some cells => cells
                         | None => []
                         end) i)
      (available_features df).

(** ** Headlines *)

(** A Python string is a list of code points.  Which code points are
    whitespace ([str.isspace], the class [\s]) and which are word characters
    (the class [\w]) is decided by Unicode tables: both are parameters. *)
Section Headlines.

Variable is_space : N -> bool.
Variable is_word : N -> bool.

(** [' '] and the characters ['-'], ['.'], [','], ['!'] and ['?'] *)
Definition SPACE : N := 32%N.
Definition DOT : N := 46%N.

Definition is_kept_punctuation (c : N) : bool :=
  N.eqb c 45 || N.eqb c 46 || N.eqb c 44 || N.eqb c 33 || N.eqb c 63.

Fixpoint lstrip (s : list N) : list N :=
  match s with
  | [] => []
  | c :: rest => if is_space c then lstrip rest else s
  end.

(** [s.strip()] *)
Definition strip (s : list N) : list N := rev (lstrip (rev (lstrip s))).

(** [re.sub(r'\s+', ' ', s)]: every run of whitespace becomes one space;
    [in_run] tells whether the character before was whitespace. *)
Fixpoint sub_whitespace_runs (in_run : bool) (s : list N) : list N :=
  match s with
  | [] => []
  | c :: rest =>
      if is_space c
      then if in_run then sub_whitespace_runs true rest
           else SPACE :: sub_whitespace_runs true rest
      else c :: sub_whitespace_runs false rest
  end.

(** A character the class [[^\w\s\-.,!?]] does not match. *)
Definition is_kept (c : N) : bool :=
  is_word c || is_space c || is_kept_punctuation c.

(** [clean_headline] of [data/news_data_collector.py], on a string. *)
Definition clean_headline (headline : list N) : list N :=
  let headline := sub_whitespace_runs false (strip headline) in
  let headline := filter is_kept headline in
  if (500 <? List.length headline)%nat
  then firstn 497 headline ++ [DOT; DOT; DOT]
  else headline.

(** A character a cleaned headline may hold. *)
Definition clean_char (c : N) : Prop :=
  c = SPACE \/ is_kept_punctuation c = true
  \/ (is_word c = true /\ is_space c = false).

(** A headline that needs no cleaning: characters that are kept, no
    whitespace but single spaces between two other characters, and at most
    500 characters. *)
Fixpoint single_spaced (s : list N) : Prop :=
  match s with
  | [] => True
  | c :: rest =>
      match rest with
      | [] => is_space c = false
      | c' :: _ =>
          (is_space c = false \/ (c = SPACE /\ is_space c' = false))
          /\ single_spaced rest
      end
  end.

Definition tidy (s : list N) : Prop :=
  (forall c, In c s -> is_kept c = true)
  /\ match s with [] => True | c :: _ => is_space c = false end
  /\ single_spaced s
  /\ (List.length s <= 500)%nat.

End Headlines.

(** The two classes on the ASCII characters. *)
Definition ascii_space (c : N) : bool :=
  N.eqb c 32 || (N.leb 9 c && N.leb c 13) || (N.leb 28 c && N.leb c 31).

Definition ascii_word (c : N) : bool :=
  (N.leb 48 c && N.leb c 57) || (N.leb 65 c && N.leb c 90)
  || (N.leb 97 c && N.leb c 122) || N.eqb c 95.

(** ["Up 5"], ["  Up   5%  "] and a headline of 600 times ['A'] *)
Definition headline_up_5 : list N := [85; 112; 32; 53]%N.
Definition headline_up_5_percent : list N :=
  [32; 32; 85; 112; 32; 32; 32; 53; 37; 32; 32]%N.
Definition headline_long : list N := repeat 65%N 600.

(** ** Predicates for the sorting routine *)

(** The routine behind [sort_values] does its work on a frame: what it
    returns are the rows of the frame, in date order. *)
Definition sorts (sort_values : list Bar -> list Bar) (df : list Bar)
  : Prop :=
  Permutation (sort_values df) df /\ sorted_by_date (sort_values df).

(** The rows of one date are rows of one symbol. *)
Definition one_symbol_per_date (df : list Bar) : Prop :=
  forall r1 r2, In r1 df -> In r2 df -> date r1 = date r2 ->
                symbol r1 = symbol r2.

(** Ten days of two symbols, day by day: twenty valid rows in date order,
    two of every date. *)
Definition two_symbol_bars : list Bar :=
  flat_map (fun i =>
              let d := Z.of_nat i in
              [mkBar "AAPL" d (fin_Z 100) (fin_Z 101) (fin_Z 99) (fin_Z 100)
                 (fin_Z 1000);
               mkBar "MSFT" d (fin_Z 200) (fin_Z 202) (fin_Z 198) (fin_Z 200)
                 (fin_Z 2000)])
           (seq 1 10).

(** Twenty-five days of one symbol, the latest first, and the third day
    once more. *)
Definition unsorted_bars : list Bar := rev rising_bars_25 ++ [sample_bar 3].

(** * Properties *)

#[local] Arguments Qred : simpl never.
#[local] Arguments Qplus : simpl never.
#[local] Arguments Qopp : simpl never.
#[local] Arguments Qmult : simpl never.
#[local] Arguments Qdiv : simpl never.
#[local] Arguments Qinv : simpl never.
#[local] Arguments inject_Z : simpl never.

(** ** Comparisons of cells *)

Lemma fle_notnull (a b : float) :
  fle a b = true -> isnan a = false /\ isnan b = false.
Proof. destruct a, b; simpl; intros H; try discriminate; auto. Qed.

Lemma fle_false_flt (a b : float) :
  isnan a = false -> isnan b = false -> fle a b = false -> flt b a = true.
Proof.
  destruct a, b; simpl; intros Ha Hb H; try discriminate; auto.
  unfold Qlt_bool. now rewrite H.
Qed.

Lemma flt_fle_false (a b : float) : flt b a = true -> fle a b = false.
Proof.
  destruct a, b; simpl; intros H; try discriminate; auto.
  unfold Qlt_bool in H. now destruct (Qle_bool q q0).
Qed.

(** ** Keys, duplicates and order *)

Lemma key_eqb_eq (k1 k2 : string * Z) : key_eqb k1 k2 = true <-> k1 = k2.
Proof.
  destruct k1 as [s1 d1], k2 as [s2 d2]. unfold key_eqb. simpl.
  rewrite andb_true_iff, String.eqb_eq, Z.eqb_eq.
  split; [intros [-> ->]; reflexivity | intros [= -> ->]; auto].
Qed.

Lemma key_mem_In (k : string * Z) (seen : list (string * Z)) :
  key_mem k seen = true <-> In k seen.
Proof.
  unfold key_mem. rewrite existsb_exists. split.
  - intros (k' & Hin & Heq). apply key_eqb_eq in Heq. now subst.
  - intros Hin. exists k. split; [assumption | now apply key_eqb_eq].
Qed.

Lemma key_mem_false (k : string * Z) (seen : list (string * Z)) :
  key_mem k seen = false <-> ~ In k seen.
Proof.
  rewrite <- key_mem_In. destruct (key_mem k seen); split; intros H;
    try discriminate; try reflexivity; auto. now elim H.
Qed.

Lemma drop_duplicates_from_In (df : list Bar) :
  forall seen r, In r (drop_duplicates_from seen df) ->
                 In r df /\ ~ In (key r) seen.
Proof.
  induction df as [|x df IH]; simpl; intros seen r H; [contradiction|].
  destruct (key_mem (key x) seen) eqn:E.
  - apply IH in H. tauto.
  - destruct H as [<- | H].
    + split; [now left | now apply key_mem_false].
    + apply IH in H. simpl in H. tauto.
Qed.

Lemma drop_duplicates_from_NoDup (df : list Bar) :
  forall seen, NoDup (map key (drop_duplicates_from seen df)).
Proof.
  induction df as [|x df IH]; simpl; intros seen; [constructor|].
  destruct (key_mem (key x) seen) eqn:E; [apply IH|].
  simpl. constructor; [|apply IH].
  rewrite in_map_iff. intros (r & Hk & Hr).
  apply drop_duplicates_from_In in Hr. destruct Hr as [_ Hr].
  apply Hr. simpl. now left.
Qed.

(** A frame without duplicate keys is left as it is. *)
Lemma drop_duplicates_from_id (df : list Bar) :
  forall seen, NoDup (map key df) ->
               (forall r, In r df -> ~ In (key r) seen) ->
               drop_duplicates_from seen df = df.
Proof.
  induction df as [|x df IH]; simpl; intros seen Hnd Hseen; [reflexivity|].
  inversion Hnd as [|k ks Hx Hnd']; subst.
  assert (E : key_mem (key x) seen = false).
  { apply key_mem_false. apply Hseen. now left. }
  rewrite E. f_equal. apply IH; [assumption|].
  intros r Hr [Hk | Hk].
  - apply Hx. rewrite Hk. now apply in_map.
  - now apply (Hseen r (or_intror Hr)).
Qed.

Lemma insert_by_date_perm (r : Bar) (l : list Bar) :
  Permutation (insert_by_date r l) (r :: l).
Proof.
  induction l as [|x l IH]; simpl; [reflexivity|].
  destruct (date r <=? date x); [reflexivity|].
  rewrite IH. apply perm_swap.
Qed.

Lemma sort_values_date_perm (df : list Bar) :
  Permutation (sort_values_date df) df.
Proof.
  induction df as [|x df IH]; simpl; [reflexivity|].
  rewrite insert_by_date_perm. now constructor.
Qed.

Lemma insert_by_date_sorted (r : Bar) (l : list Bar) :
  StronglySorted Z.le (map date l) ->
  StronglySorted Z.le (map date (insert_by_date r l)).
Proof.
  induction l as [|x l IH]; simpl; intros Hs.
  - repeat constructor.
  - inversion Hs as [|d ds Hs' Hall]; subst.
    destruct (date r <=? date x) eqn:E.
    + simpl. constructor; [assumption|].
      apply Z.leb_le in E. constructor; [assumption|].
      eapply Forall_impl; [|exact Hall]. simpl. intros; lia.
    + simpl. constructor; [now apply IH|].
      apply Z.leb_gt in E.
      assert (Hp : Permutation (map date (insert_by_date r l))
                               (date r :: map date l)).
      { change (date r :: map date l) with (map date (r :: l)).
        apply Permutation_map, insert_by_date_perm. }
      eapply Permutation_Forall; [symmetry; exact Hp|].
      constructor; [lia | assumption].
Qed.

Lemma sort_values_date_sorted (df : list Bar) :
  StronglySorted Z.le (map date (sort_values_date df)).
Proof.
  induction df as [|x df IH]; simpl; [constructor|].
  now apply insert_by_date_sorted.
Qed.

(** A frame already in date order is left as it is. *)
Lemma sort_values_date_id (df : list Bar) :
  StronglySorted Z.le (map date df) -> sort_values_date df = df.
Proof.
  induction df as [|x df IH]; simpl; intros Hs; [reflexivity|].
  inversion Hs as [|d ds Hs' Hall]; subst.
  rewrite IH by assumption.
  destruct df as [|y df]; simpl; [reflexivity|].
  inversion Hall as [|? ? Hxy _]; subst.
  apply Z.leb_le in Hxy. now rewrite Hxy.
Qed.

(** Where no two rows have one date there is one way to put a frame in
    date order, so on such a frame every sorting routine returns what
    [sort_values_date] returns, stable or not. *)
Lemma date_order_unique (l1 : list Bar) :
  forall l2, Permutation l1 l2 ->
             StronglySorted Z.le (map date l1) ->
             StronglySorted Z.le (map date l2) ->
             NoDup (map date l1) -> l1 = l2.
Proof.
  induction l1 as [|x l1 IH]; intros l2 Hp Hs1 Hs2 Hnd.
  - apply Permutation_nil in Hp. now subst.
  - destruct l2 as [|y l2].
    { apply Permutation_sym, Permutation_nil in Hp. discriminate. }
    simpl in Hs1, Hs2, Hnd.
    inversion Hs1 as [|? ? Hs1' Hall1]; subst.
    inversion Hs2 as [|? ? Hs2' Hall2]; subst.
    inversion Hnd as [|? ? Hx Hnd']; subst.
    rewrite Forall_forall in Hall1, Hall2.
    assert (Exy : x = y).
    { assert (Hy : In y (x :: l1)).
      { eapply Permutation_in; [symmetry; exact Hp | now left]. }
      assert (Hx' : In x (y :: l2)).
      { eapply Permutation_in; [exact Hp | now left]. }
      destruct Hy as [Hy | Hy]; [assumption|].
      destruct Hx' as [Hx' | Hx']; [now symmetry|].
      exfalso. apply Hx.
      assert (Hle1 : date x <= date y) by (apply Hall1; now apply in_map).
      assert (Hle2 : date y <= date x) by (apply Hall2; now apply in_map).
      replace (date x) with (date y) by lia. now apply in_map. }
    subst y. f_equal. apply IH; auto.
    eapply Permutation_cons_inv. exact Hp.
Qed.

Lemma sort_values_date_canonical (df sorted : list Bar) :
  NoDup (map date df) -> Permutation sorted df ->
  StronglySorted Z.le (map date sorted) ->
  sorted = sort_values_date df.
Proof.
  intros Hnd Hp Hs. apply date_order_unique.
  - rewrite Hp. symmetry. apply sort_values_date_perm.
  - assumption.
  - apply sort_values_date_sorted.
  - eapply Permutation_NoDup; [|exact Hnd].
    apply Permutation_map. now symmetry.
Qed.

(** The rows of one symbol have distinct dates once their keys are
    distinct. *)
Lemma one_symbol_dates_distinct (s : string) (df : list Bar) :
  (forall r, In r df -> symbol r = s) ->
  NoDup (map key df) -> NoDup (map date df).
Proof.
  induction df as [|x df IH]; simpl; intros Hs Hnd; [constructor|].
  inversion Hnd as [|? ? Hx Hnd']; subst.
  constructor; [|apply IH; auto].
  rewrite in_map_iff. intros (y & Hd & Hy). apply Hx.
  apply in_map_iff. exists y. split; [|assumption].
  unfold key. rewrite Hd, (Hs y (or_intror Hy)), (Hs x (or_introl eq_refl)).
  reflexivity.
Qed.

(** Filtering rows keeps a frame free of duplicate keys and in date
    order. *)
Lemma filter_keeps_keys_distinct (keep : Bar -> bool) (df : list Bar) :
  NoDup (map key df) -> NoDup (map key (filter keep df)).
Proof.
  induction df as [|r df IH]; simpl; intros H; [constructor|].
  inversion H as [|? ? Hr Hnd]; subst.
  destruct (keep r); simpl; [|now apply IH].
  constructor; [|now apply IH].
  rewrite in_map_iff. intros (r' & Hk & Hin).
  apply filter_In in Hin. apply Hr. rewrite <- Hk. apply in_map. tauto.
Qed.

Lemma filter_keeps_date_order (keep : Bar -> bool) (df : list Bar) :
  StronglySorted Z.le (map date df) ->
  StronglySorted Z.le (map date (filter keep df)).
Proof.
  induction df as [|r df IH]; simpl; intros H; [constructor|].
  inversion H as [|? ? Hs Hall]; subst.
  destruct (keep r); simpl; [|now apply IH].
  constructor; [now apply IH|].
  rewrite Forall_forall in *. intros d Hd.
  apply in_map_iff in Hd. destruct Hd as (r' & <- & Hin).
  apply filter_In in Hin. apply Hall. apply in_map. tauto.
Qed.

Lemma filter_all {A : Type} (p : A -> bool) (l : list A) :
  (forall x, In x l -> p x = true) -> filter p l = l.
Proof.
  induction l as [|x l IH]; simpl; intros H; [reflexivity|].
  rewrite (H x (or_introl eq_refl)). f_equal. apply IH. auto.
Qed.

Lemma filter_none {A : Type} (p : A -> bool) (l : list A) :
  (forall x, In x l -> p x = false) -> filter p l = [].
Proof.
  induction l as [|x l IH]; simpl; intros H; [reflexivity|].
  rewrite (H x (or_introl eq_refl)). apply IH. auto.
Qed.

Lemma existsb_false {A : Type} (p : A -> bool) (l : list A) :
  existsb p l = false <-> (forall x, In x l -> p x = false).
Proof.
  induction l as [|x l IH]; simpl.
  - split; [intros _ x [] | reflexivity].
  - rewrite orb_false_iff, IH. split.
    + intros [Hx Hl] y [<- | Hy]; auto.
    + intros H. split; auto.
Qed.

(** ** Missing values *)

Lemma ffill_prices_keys (df : list Bar) :
  forall po ph pl pc,
    map key (ffill_prices po ph pl pc df) = map key df
    /\ map date (ffill_prices po ph pl pc df) = map date df.
Proof.
  induction df as [|x df IH]; simpl; intros; [auto|].
  destruct (IH (fill_from po (open x)) (fill_from ph (high x))
               (fill_from pl (low x)) (fill_from pc (close x))) as [-> ->].
  auto.
Qed.

Lemma fillna_volume_keys (df : list Bar) :
  map key (fillna_volume df) = map key df
  /\ map date (fillna_volume df) = map date df.
Proof.
  unfold fillna_volume. rewrite !map_map. simpl. auto.
Qed.

Lemma handle_missing_keys (df : list Bar) :
  map key (handle_missing df) = map key df
  /\ map date (handle_missing df) = map date df.
Proof.
  unfold handle_missing. destruct (has_missing df); [|auto].
  destruct (fillna_volume_keys (ffill_prices NaN NaN NaN NaN df)) as [-> ->].
  apply ffill_prices_keys.
Qed.

Lemma handle_missing_volume (df : list Bar) (r : Bar) :
  In r (handle_missing df) -> isnan (volume r) = false.
Proof.
  unfold handle_missing. destruct (has_missing df) eqn:E.
  - unfold fillna_volume. rewrite in_map_iff. intros (x & <- & _). simpl.
    destruct (isnan (volume x)) eqn:Ev; [reflexivity | assumption].
  - intros Hin. unfold has_missing in E.
    rewrite existsb_false in E. specialize (E r Hin).
    unfold row_has_null in E. rewrite !orb_false_iff in E. tauto.
Qed.

Lemma handle_missing_id (df : list Bar) :
  (forall r, In r df -> row_has_null r = false) -> handle_missing df = df.
Proof.
  intros H. unfold handle_missing, has_missing.
  apply existsb_false in H. now rewrite H.
Qed.

(** ** The cleaning stage *)

(** The guard before the first filter changes nothing: without an invalid
    row the filter keeps the frame. *)
Lemma clean_stock_data_filters (df : list Bar) :
  clean_stock_data df =
  filter price_logic
    (filter (fun r => negb (invalid_prices r)) (before_filters df)).
Proof.
  unfold clean_stock_data, before_filters.
  destruct (existsb invalid_prices _) eqn:E; [reflexivity|].
  rewrite existsb_false in E. f_equal. symmetry. apply filter_all.
  intros r Hr. now rewrite (E r Hr).
Qed.

Lemma clean_stock_data_In (df : list Bar) (r : Bar) :
  In r (clean_stock_data df) <->
  In r (before_filters df) /\ rejected r = false.
Proof.
  rewrite clean_stock_data_filters, !filter_In. unfold rejected.
  rewrite orb_false_iff, !negb_true_iff, negb_false_iff. tauto.
Qed.

Lemma kept_valid (r : Bar) : rejected r = false -> valid_bar r.
Proof.
  unfold valid_bar, rejected, invalid_prices, price_logic, fge, fgt.
  rewrite !orb_false_iff, negb_false_iff, !andb_true_iff.
  intros [[[[Ho Hh] Hl] Hc] [[Hhl Hho] Hhc]].
  destruct (fle_notnull _ _ Hhl) as [Nl Nh].
  destruct (fle_notnull _ _ Hho) as [No _].
  destruct (fle_notnull _ _ Hhc) as [Nc _].
  repeat split; try assumption; now apply fle_false_flt.
Qed.

Lemma valid_kept (r : Bar) : valid_bar r -> rejected r = false.
Proof.
  unfold valid_bar, rejected, invalid_prices, price_logic, fge, fgt.
  intros (Ho & Hh & Hl & Hc & Hhl & Hho & Hhc).
  rewrite Hhl, Hho, Hhc. simpl.
  now rewrite !flt_fle_false by assumption.
Qed.

Lemma valid_bar_prices_notnull (r : Bar) :
  valid_bar r ->
  isnan (open r) = false /\ isnan (high r) = false /\
  isnan (low r) = false /\ isnan (close r) = false.
Proof.
  unfold valid_bar, fge. intros (_ & _ & _ & _ & Hhl & Hho & Hhc).
  destruct (fle_notnull _ _ Hhl), (fle_notnull _ _ Hho),
    (fle_notnull _ _ Hhc). auto.
Qed.

Lemma before_filters_sorted (df : list Bar) :
  sorted_by_date (before_filters df).
Proof.
  unfold sorted_by_date, before_filters.
  destruct (handle_missing_keys (sort_values_date (drop_duplicates df)))
    as [_ ->].
  apply sort_values_date_sorted.
Qed.

Lemma before_filters_no_duplicate_keys (df : list Bar) :
  no_duplicate_keys (before_filters df).
Proof.
  unfold no_duplicate_keys, before_filters.
  destruct (handle_missing_keys (sort_values_date (drop_duplicates df)))
    as [-> _].
  eapply Permutation_NoDup.
  - apply Permutation_map. symmetry. apply sort_values_date_perm.
  - apply drop_duplicates_from_NoDup.
Qed.

Lemma clean_stock_data_valid (df : list Bar) :
  Forall valid_bar (clean_stock_data df).
Proof.
  apply Forall_forall. intros r Hr.
  apply clean_stock_data_In in Hr. now apply kept_valid.
Qed.

Lemma clean_stock_data_sorted (df : list Bar) :
  sorted_by_date (clean_stock_data df).
Proof.
  rewrite clean_stock_data_filters. unfold sorted_by_date.
  do 2 apply filter_keeps_date_order. apply before_filters_sorted.
Qed.

Lemma clean_stock_data_no_duplicate_keys (df : list Bar) :
  no_duplicate_keys (clean_stock_data df).
Proof.
  rewrite clean_stock_data_filters. unfold no_duplicate_keys.
  do 2 apply filter_keeps_keys_distinct.
  apply before_filters_no_duplicate_keys.
Qed.

(** C3: every row of the output of [clean_stock_data] has positive open,
    high, low and close and a high that is at least the low, the open and the
    close; the output is in ascending date order and holds no two rows of one
    (symbol, date); and it is empty when the filters reject every row. *)
Theorem clean_stock_data_invariants (df : list Bar) :
  Forall valid_bar (clean_stock_data df)
  /\ sorted_by_date (clean_stock_data df)
  /\ no_duplicate_keys (clean_stock_data df)
  /\ ((forall r, In r (before_filters df) -> rejected r = true) ->
      clean_stock_data df = []).
Proof.
  split; [apply clean_stock_data_valid|].
  split; [apply clean_stock_data_sorted|].
  split; [apply clean_stock_data_no_duplicate_keys|].
  intros Hrej.
  destruct (clean_stock_data df) as [|r l] eqn:E; [reflexivity|].
  assert (Hin : In r (clean_stock_data df)) by (rewrite E; now left).
  apply clean_stock_data_In in Hin. destruct Hin as [Hin Hk].
  rewrite (Hrej r Hin) in Hk. discriminate.
Qed.

(** A frame whose only row has an open of 0 is cleaned to nothing. *)
Lemma clean_stock_data_invariants_witness :
  clean_stock_data [mkBar "AAPL" 1 (Fin 0) (Fin 2) (Fin 1) (Fin 1) (Fin 10)]
  = [].
Proof.
  apply (proj2 (proj2 (proj2 (clean_stock_data_invariants
           [mkBar "AAPL" 1 (Fin 0) (Fin 2) (Fin 1) (Fin 1) (Fin 10)])))).
  intros r Hr. vm_compute in Hr. destruct Hr as [<- | []]. reflexivity.
Defined.

(** A cleaned frame has no missing cell. *)
Lemma clean_stock_data_complete (df : list Bar) (r : Bar) :
  In r (clean_stock_data df) -> row_has_null r = false.
Proof.
  intros Hr. apply clean_stock_data_In in Hr. destruct Hr as [Hin Hk].
  apply kept_valid, valid_bar_prices_notnull in Hk.
  destruct Hk as (Ho & Hh & Hl & Hc).
  unfold row_has_null. rewrite Ho, Hh, Hl, Hc. simpl.
  eapply handle_missing_volume. exact Hin.
Qed.

(** ** Cleaning a cleaned frame *)

(** With distinct keys, rows of one date being rows of one symbol, no two
    rows have one date. *)
Lemma one_symbol_per_date_dates_distinct (df : list Bar) :
  one_symbol_per_date df -> NoDup (map key df) -> NoDup (map date df).
Proof.
  unfold one_symbol_per_date. induction df as [|x df IH]; intros H1 Hnd.
  - constructor.
  - simpl in *. apply NoDup_cons_iff in Hnd. destruct Hnd as [Hx Hnd].
    constructor.
    + rewrite in_map_iff. intros (r & Hd & Hr). apply Hx.
      apply in_map_iff. exists r. split; [|assumption].
      unfold key. rewrite Hd. f_equal.
      apply H1; [now right | now left | assumption].
    + apply IH; [|assumption].
      intros r1 r2 Hr1 Hr2. apply H1; now right.
Qed.

(** A routine that returns what the stable sort returns has done its
    work. *)
Lemma sorts_as_stable (sort_values : list Bar -> list Bar) (df : list Bar) :
  sort_values df = sort_values_date df -> sorts sort_values df.
Proof.
  intros E. unfold sorts. rewrite E. split.
  - apply sort_values_date_perm.
  - apply sort_values_date_sorted.
Qed.

Section AnySort.

Variable sort_values : list Bar -> list Bar.

Lemma clean_stock_data_by_filters (df : list Bar) :
  clean_stock_data_by sort_values df =
  filter price_logic
    (filter (fun r => negb (invalid_prices r))
       (handle_missing (sort_values (drop_duplicates df)))).
Proof.
  unfold clean_stock_data_by.
  destruct (existsb invalid_prices _) eqn:E; [reflexivity|].
  rewrite existsb_false in E. f_equal. symmetry. apply filter_all.
  intros r Hr. now rewrite (E r Hr).
Qed.

Lemma clean_stock_data_by_In (df : list Bar) (r : Bar) :
  In r (clean_stock_data_by sort_values df) <->
  In r (handle_missing (sort_values (drop_duplicates df)))
  /\ rejected r = false.
Proof.
  rewrite clean_stock_data_by_filters, !filter_In. unfold rejected.
  rewrite orb_false_iff, !negb_true_iff, negb_false_iff. tauto.
Qed.

Lemma clean_stock_data_by_valid (df : list Bar) (r : Bar) :
  In r (clean_stock_data_by sort_values df) ->
  valid_bar r /\ row_has_null r = false.
Proof.
  intros Hr. apply clean_stock_data_by_In in Hr. destruct Hr as [Hin Hk].
  apply kept_valid in Hk. split; [assumption|].
  destruct (valid_bar_prices_notnull r Hk) as (Ho & Hh & Hl & Hc).
  unfold row_has_null. rewrite Ho, Hh, Hl, Hc. simpl.
  eapply handle_missing_volume. exact Hin.
Qed.

(** Where the routine has sorted, the cleaned frame is in date order, no
    two of its rows have one (symbol, date), and its keys are keys of the
    input. *)
Lemma clean_stock_data_by_keys (df : list Bar) :
  sorts sort_values (drop_duplicates df) ->
  sorted_by_date (clean_stock_data_by sort_values df)
  /\ no_duplicate_keys (clean_stock_data_by sort_values df)
  /\ forall r, In r (clean_stock_data_by sort_values df) ->
               In (key r) (map key df).
Proof.
  intros [Hp Hs]. rewrite clean_stock_data_by_filters.
  destruct (handle_missing_keys (sort_values (drop_duplicates df)))
    as [Hk Hd].
  assert (Hpk : Permutation (map key (sort_values (drop_duplicates df)))
                            (map key (drop_duplicates df)))
    by now apply Permutation_map.
  split; [|split].
  - unfold sorted_by_date. do 2 apply filter_keeps_date_order.
    rewrite Hd. exact Hs.
  - unfold no_duplicate_keys. do 2 apply filter_keeps_keys_distinct.
    rewrite Hk. eapply Permutation_NoDup; [symmetry; exact Hpk|].
    apply drop_duplicates_from_NoDup.
  - intros r Hr. apply filter_In in Hr. destruct Hr as [Hr _].
    apply filter_In in Hr. destruct Hr as [Hr _].
    apply (in_map key) in Hr. rewrite Hk in Hr.
    apply (Permutation_in _ Hpk) in Hr.
    apply in_map_iff in Hr. destruct Hr as (r0 & <- & Hr0).
    apply drop_duplicates_from_In in Hr0. apply in_map. tauto.
Qed.

(** On a frame of valid rows with distinct keys and no missing volume the
    sort is all that cleaning does. *)
Lemma clean_stock_data_by_sort_only (df : list Bar) :
  Forall valid_bar df -> no_duplicate_keys df ->
  (forall r, In r df -> isnan (volume r) = false) ->
  Permutation (sort_values df) df ->
  clean_stock_data_by sort_values df = sort_values df.
Proof.
  intros Hv Hn Hvol Hp. rewrite Forall_forall in Hv.
  assert (Hin : forall r, In r (sort_values df) -> In r df)
    by (intros r; apply Permutation_in; exact Hp).
  rewrite clean_stock_data_by_filters. unfold drop_duplicates.
  rewrite drop_duplicates_from_id by (auto; intros ? ? []).
  rewrite handle_missing_id.
  - assert (Hk : forall r, In r (sort_values df) -> rejected r = false)
      by (intros r Hr; now apply valid_kept, Hv, Hin).
    rewrite (filter_all (fun r => negb (invalid_prices r))).
    + apply filter_all. intros r Hr. specialize (Hk r Hr).
      unfold rejected in Hk. apply orb_false_iff in Hk.
      now apply negb_false_iff.
    + intros r Hr. specialize (Hk r Hr).
      unfold rejected in Hk. apply orb_false_iff in Hk.
      now apply negb_true_iff.
  - intros r Hr. apply Hin in Hr.
    destruct (valid_bar_prices_notnull r (Hv r Hr)) as (Ho & Hh & Hl & Hc).
    unfold row_has_null. rewrite Ho, Hh, Hl, Hc. simpl. now apply Hvol.
Qed.

(** A second cleaning only sorts the frame again. *)
Lemma clean_stock_data_by_twice (df : list Bar) :
  sorts sort_values (drop_duplicates df) ->
  sorts sort_values (clean_stock_data_by sort_values df) ->
  clean_stock_data_by sort_values (clean_stock_data_by sort_values df)
  = sort_values (clean_stock_data_by sort_values df).
Proof.
  intros Hs1 [Hp2 _].
  destruct (clean_stock_data_by_keys df Hs1) as (_ & Hn & _).
  apply clean_stock_data_by_sort_only; [| assumption | | assumption].
  - apply Forall_forall. intros r Hr.
    now apply clean_stock_data_by_valid in Hr.
  - intros r Hr. apply clean_stock_data_by_valid in Hr.
    destruct Hr as [_ Hr]. unfold row_has_null in Hr.
    rewrite !orb_false_iff in Hr. tauto.
Qed.

(** In a frame with one symbol per date the cleaned frame has one row per
    date. *)
Lemma clean_stock_data_by_dates (df : list Bar) :
  sorts sort_values (drop_duplicates df) ->
  one_symbol_per_date df ->
  NoDup (map date (clean_stock_data_by sort_values df)).
Proof.
  intros Hs1 H1.
  destruct (clean_stock_data_by_keys df Hs1) as (_ & Hn & Hkeys).
  apply one_symbol_per_date_dates_distinct; [|exact Hn].
  intros r1 r2 Hr1 Hr2 Hd.
  apply Hkeys in Hr1. apply Hkeys in Hr2.
  apply in_map_iff in Hr1. destruct Hr1 as (x1 & E1 & Hx1).
  apply in_map_iff in Hr2. destruct Hr2 as (x2 & E2 & Hx2).
  unfold key in E1, E2. injection E1 as Es1 Ed1. injection E2 as Es2 Ed2.
  rewrite <- Es1, <- Es2. apply H1; [assumption | assumption | congruence].
Qed.

End AnySort.

(** Where the rows of one date are rows of one symbol, every routine that
    sorts gives the frame [clean_stock_data] gives. *)
Lemma clean_stock_data_by_canonical (sort_values : list Bar -> list Bar)
    (df : list Bar) :
  sorts sort_values (drop_duplicates df) ->
  one_symbol_per_date df ->
  clean_stock_data_by sort_values df = clean_stock_data df.
Proof.
  intros [Hp Hs] H1.
  assert (E : sort_values (drop_duplicates df)
              = sort_values_date (drop_duplicates df)).
  { apply sort_values_date_canonical; try assumption.
    apply one_symbol_per_date_dates_distinct.
    - intros r1 r2 Hr1 Hr2.
      apply drop_duplicates_from_In in Hr1, Hr2. apply H1; tauto.
    - apply drop_duplicates_from_NoDup. }
  unfold clean_stock_data_by, clean_stock_data. now rewrite E.
Qed.

(** C4: cleaning a cleaned frame, whatever routine sorts, as long as it
    sorts the two frames it is given: the second run drops no row and
    changes no value, so its output holds the rows of the first; and for a
    frame in which the rows of one date are rows of one symbol the second
    run returns the output of the first, row for row and cell for cell. *)
Theorem clean_stock_data_idempotent (sort_values : list Bar -> list Bar)
    (df : list Bar) :
  let clean := clean_stock_data_by sort_values in
  sorts sort_values (drop_duplicates df) ->
  sorts sort_values (clean df) ->
  Permutation (clean (clean df)) (clean df)
  /\ (one_symbol_per_date df -> clean (clean df) = clean df).
Proof.
  cbv zeta. intros Hs1 Hs2.
  rewrite (clean_stock_data_by_twice sort_values df Hs1 Hs2).
  destruct Hs2 as [Hp2 Hsorted2]. split; [exact Hp2|].
  intros H1.
  destruct (clean_stock_data_by_keys sort_values df Hs1) as (Hs & _ & _).
  apply date_order_unique; try assumption.
  eapply Permutation_NoDup.
  - apply Permutation_map. symmetry. exact Hp2.
  - now apply clean_stock_data_by_dates.
Qed.

(** Twenty-six rows of one symbol, the latest first and one day twice,
    sorted by the routine of numpy: the second cleaning returns what the
    first returned. *)
Lemma clean_stock_data_idempotent_witness :
  clean_stock_data_by sort_values_quicksort
    (clean_stock_data_by sort_values_quicksort unsorted_bars)
  = clean_stock_data_by sort_values_quicksort unsorted_bars.
Proof.
  apply (clean_stock_data_idempotent sort_values_quicksort unsorted_bars).
  - apply sorts_as_stable. vm_compute. reflexivity.
  - apply sorts_as_stable. vm_compute. reflexivity.
  - intros r1 r2 H1 H2 _.
    assert (Hall : forall r, In r unsorted_bars -> symbol r = "AAPL"%string).
    { apply Forall_forall. vm_compute. repeat constructor. }
    now rewrite (Hall r1 H1), (Hall r2 H2).
Defined.

(** Ten days of two symbols, twenty valid rows in date order: the routine
    of numpy exchanges the two rows of day 5, so the cleaned frame is not
    the input although the input is clean, and a second cleaning exchanges
    them again: it returns the input, not the output of the first. *)
Lemma clean_stock_data_reorders_counterexample :
  let clean := clean_stock_data_by sort_values_quicksort in
  map key (firstn 2 (skipn 8 two_symbol_bars))
  = [("AAPL"%string, 5); ("MSFT"%string, 5)]
  /\ map key (firstn 2 (skipn 8 (clean two_symbol_bars)))
     = [("MSFT"%string, 5); ("AAPL"%string, 5)]
  /\ clean (clean two_symbol_bars) = two_symbol_bars
  /\ clean (clean two_symbol_bars) <> clean two_symbol_bars.
Proof.
  cbv zeta. split; [reflexivity|]. split; [vm_compute; reflexivity|].
  split; [vm_compute; reflexivity|].
  intros E. apply (f_equal (fun l => map symbol (firstn 1 (skipn 8 l)))) in E.
  vm_compute in E. discriminate E.
Qed.

(** ** The label constructor *)

Lemma shift_length (k : Z) (xs : list float) :
  List.length (shift k xs) = List.length xs.
Proof. unfold shift. now rewrite length_map, length_seq. Qed.

(** No row is dropped: the target column is an int column, where
    [dropna] finds nothing missing. *)
Lemma create_target_variable_length {Row : Type} (close_of : Row -> float)
    (df : list Row) (days_ahead : Z) :
  List.length (create_target_variable close_of df days_ahead)
  = List.length df.
Proof.
  unfold create_target_variable.
  rewrite filter_all by reflexivity.
  rewrite length_map, length_combine, shift_length, length_map.
  apply Nat.min_id.
Qed.

(** The target of every row of the output follows the threshold of 2. *)
Lemma create_target_variable_target {Row : Type} (close_of : Row -> float)
    (df : list Row) (days_ahead : Z) (r : Labeled Row) :
  In r (create_target_variable close_of df days_ahead) ->
  target r = if fgt (price_change_pct r) (Fin 2) then 1 else 0.
Proof.
  unfold create_target_variable. rewrite filter_In, in_map_iff.
  intros [(p & <- & _) _]. reflexivity.
Qed.

(** C2 (the code departs from it): on the closes 100, 102, 105, 98, 110
    with a horizon of two days [create_target_variable] returns all five
    rows; the last two, whose future price is missing, are kept with
    target 0 instead of being left out. *)
Theorem create_target_variable_keeps_last_rows :
  let out := create_target_variable (fun c => c)
               (map fin_Z [100; 102; 105; 98; 110]) 2 in
  List.length out = 5%nat
  /\ map future_price out = [Fin 105; Fin 98; Fin 110; NaN; NaN]
  /\ map price_change_pct out
     = [Fin 5; Fin (-200 # 51); Fin (100 # 21); NaN; NaN]
  /\ map target out = [1; 0; 1; 0; 0].
Proof. vm_compute. repeat split; reflexivity. Qed.

(** ** Rolling windows *)

Lemma nth_map_seq (f : nat -> float) (n i : nat) :
  nth i (map f (seq 0 n)) NaN = if (i <? n)%nat then f i else NaN.
Proof.
  destruct (i <? n)%nat eqn:E.
  - apply Nat.ltb_lt in E.
    rewrite (nth_indep _ NaN (f 0%nat)) by now rewrite length_map, length_seq.
    rewrite map_nth, seq_nth by assumption. reflexivity.
  - apply Nat.ltb_ge in E. apply nth_overflow.
    now rewrite length_map, length_seq.
Qed.

Lemma cell_rolling (w : nat) (agg : list float -> float) (xs : list float)
    (i : nat) :
  cell (rolling w agg xs) i =
  if (i <? List.length xs)%nat
  then if (i + 1 <? w)%nat then NaN
       else if existsb isnan (window w i xs) then NaN
       else agg (window w i xs)
  else NaN.
Proof. unfold cell, rolling. apply nth_map_seq. Qed.

Lemma rolling_length (w : nat) (agg : list float -> float)
    (xs : list float) :
  List.length (rolling w agg xs) = List.length xs.
Proof. unfold rolling. now rewrite length_map, length_seq. Qed.

Lemma window_length (w i : nat) (xs : list float) :
  (i < List.length xs)%nat -> (w <= i + 1)%nat ->
  List.length (window w i xs) = w.
Proof.
  intros Hi Hw. unfold window. rewrite length_firstn, length_skipn. lia.
Qed.

Lemma In_firstn {A : Type} (n : nat) (l : list A) (x : A) :
  In x (firstn n l) -> In x l.
Proof.
  intros H. rewrite <- (firstn_skipn n l). apply in_or_app. now left.
Qed.

Lemma In_skipn {A : Type} (n : nat) (l : list A) (x : A) :
  In x (skipn n l) -> In x l.
Proof.
  intros H. rewrite <- (firstn_skipn n l). apply in_or_app. now right.
Qed.

Lemma window_incl (w i : nat) (xs : list float) (x : float) :
  In x (window w i xs) -> In x xs.
Proof.
  unfold window. intros H.
  apply In_firstn in H. now apply In_skipn in H.
Qed.

(** Until [w] cells are there the rolling value is missing. *)
Lemma cell_rolling_short (w : nat) (agg : list float -> float)
    (xs : list float) (i : nat) :
  (i + 1 < w)%nat -> cell (rolling w agg xs) i = NaN.
Proof.
  intros H. rewrite cell_rolling. apply Nat.ltb_lt in H. rewrite H.
  now destruct (i <? List.length xs)%nat.
Qed.

(** ** The relative strength index *)

Lemma Qlt_bool_iff (x y : Q) : Qlt_bool x y = true <-> (x < y)%Q.
Proof.
  unfold Qlt_bool. rewrite negb_true_iff. split.
  - intros H. apply Qnot_le_lt. intros Hle.
    apply Qle_bool_iff in Hle. congruence.
  - intros H. destruct (Qle_bool y x) eqn:E; [|reflexivity].
    apply Qle_bool_iff in E. now apply Qlt_not_le in H.
Qed.

Lemma Qlt_bool_false (x y : Q) : Qlt_bool x y = false <-> (y <= x)%Q.
Proof.
  unfold Qlt_bool. rewrite negb_false_iff. apply Qle_bool_iff.
Qed.

Lemma Qeq_bool_false (x y : Q) : Qeq_bool x y = false -> ~ (x == y)%Q.
Proof. intros H E. apply Qeq_bool_iff in E. congruence. Qed.

Lemma nonneg_notnull (x : float) : nonneg x -> isnan x = false.
Proof. intros [-> | (q & -> & _)]; reflexivity. Qed.

Lemma fadd_nonneg (a b : float) : nonneg a -> nonneg b -> nonneg (fadd a b).
Proof.
  intros [-> | (x & -> & Hx)] [-> | (y & -> & Hy)]; simpl;
    try (left; reflexivity).
  right. eexists. split; [reflexivity|]. rewrite Qred_correct. lra.
Qed.

Lemma fold_fadd_nonneg (xs : list float) :
  forall acc, nonneg acc -> (forall x, In x xs -> nonneg x) ->
              nonneg (fold_left fadd xs acc).
Proof.
  induction xs as [|x xs IH]; simpl; intros acc Ha Hxs; [assumption|].
  apply IH; [apply fadd_nonneg|]; auto.
Qed.

Lemma mean_nonneg (xs : list float) :
  xs <> [] -> (forall x, In x xs -> nonneg x) -> nonneg (mean xs).
Proof.
  intros Hne Hxs. unfold mean, fsum, fin_Z.
  assert (Hn : (0 < inject_Z (Z.of_nat (List.length xs)))%Q).
  { destruct xs as [|x xs]; [congruence|].
    change 0%Q with (inject_Z 0). rewrite <- Zlt_Qlt. simpl List.length. lia. }
  assert (Hs : nonneg (fold_left fadd xs (Fin 0))).
  { apply fold_fadd_nonneg; [|assumption].
    right. exists 0%Q. split; [reflexivity | lra]. }
  destruct Hs as [-> | (q & -> & Hq)]; simpl.
  - assert (E : Qlt_bool (inject_Z (Z.of_nat (List.length xs))) 0 = false)
      by (apply Qlt_bool_false; lra).
    rewrite E. now left.
  - destruct (Qeq_bool _ 0) eqn:E.
    + apply Qeq_bool_iff in E. lra.
    + right. eexists. split; [reflexivity|]. rewrite Qred_correct.
      apply Qle_shift_div_l; [assumption | lra].
Qed.

Lemma gains_nonneg (delta : list float) (x : float) :
  In x (gains delta) -> nonneg x.
Proof.
  unfold gains. rewrite in_map_iff. intros (d & <- & _).
  destruct d as [| | |q]; simpl; try (now left);
    try (right; exists 0%Q; split; [reflexivity | lra]).
  destruct (Qlt_bool 0 q) eqn:E.
  - apply Qlt_bool_iff in E. right. exists q. split; [reflexivity | lra].
  - right. exists 0%Q. split; [reflexivity | lra].
Qed.

Lemma losses_nonneg (delta : list float) (x : float) :
  In x (losses delta) -> nonneg x.
Proof.
  unfold losses. rewrite in_map_iff. intros (d & <- & _).
  destruct d as [| | |q]; simpl; try (now left);
    try (right; eexists; split; [reflexivity | vm_compute; discriminate]).
  destruct (Qlt_bool q 0) eqn:E; simpl.
  - apply Qlt_bool_iff in E. right. eexists. split; [reflexivity|].
    rewrite Qred_correct. lra.
  - right. eexists. split; [reflexivity | vm_compute; discriminate].
Qed.

(** A rolling mean over cells that are not negative is missing or not
    negative. *)
Lemma rolling_mean_nonneg (w : nat) (xs : list float) (i : nat) :
  (0 < w)%nat -> (forall x, In x xs -> nonneg x) ->
  cell (rolling w mean xs) i = NaN \/ nonneg (cell (rolling w mean xs) i).
Proof.
  intros Hw Hxs. rewrite cell_rolling.
  destruct (i <? List.length xs)%nat eqn:Hi; [|now left].
  destruct (i + 1 <? w)%nat eqn:Hs; [now left|].
  destruct (existsb isnan (window w i xs)); [now left|].
  right. apply Nat.ltb_lt in Hi. apply Nat.ltb_ge in Hs.
  apply mean_nonneg.
  - intros E. apply (f_equal (@List.length float)) in E.
    rewrite window_length in E by lia. simpl in E. lia.
  - intros x Hx. apply Hxs. eapply window_incl. exact Hx.
Qed.

Lemma shift1_length (xs : list float) :
  List.length (shift1 xs) = List.length xs.
Proof.
  destruct xs as [|x xs]; [reflexivity|].
  unfold shift1. rewrite removelast_firstn_len.
  cbn [List.length]. rewrite length_firstn. cbn [List.length Nat.pred]. lia.
Qed.

Lemma zip_with_length (f : float -> float -> float) (xs ys : list float) :
  List.length xs = List.length ys ->
  List.length (zip_with f xs ys) = List.length xs.
Proof.
  intros H. unfold zip_with. rewrite length_map, length_combine. lia.
Qed.

Lemma cell_zip_with (f : float -> float -> float) (xs ys : list float)
    (i : nat) :
  List.length xs = List.length ys -> f NaN NaN = NaN ->
  cell (zip_with f xs ys) i = f (cell xs i) (cell ys i).
Proof.
  intros Hlen Hf. unfold cell, zip_with.
  rewrite <- Hf at 1.
  change (f NaN NaN) with ((fun p => f (fst p) (snd p)) (NaN, NaN)).
  rewrite map_nth, combine_nth by assumption. reflexivity.
Qed.

Lemma avg_lengths (closes : list float) :
  List.length (avg_gain closes) = List.length (avg_loss closes).
Proof.
  unfold avg_gain, avg_loss, gains, losses.
  now rewrite !rolling_length, !length_map.
Qed.

Lemma cell_rsi_col (closes : list float) (i : nat) :
  cell (rsi_col closes) i
  = rsi_of (cell (avg_gain closes) i) (cell (avg_loss closes) i).
Proof.
  unfold rsi_col. apply cell_zip_with; [apply avg_lengths | reflexivity].
Qed.

Lemma avg_gain_cell (closes : list float) (i : nat) :
  cell (avg_gain closes) i = NaN \/ nonneg (cell (avg_gain closes) i).
Proof.
  apply rolling_mean_nonneg; [lia | apply gains_nonneg].
Qed.

Lemma avg_loss_cell (closes : list float) (i : nat) :
  cell (avg_loss closes) i = NaN \/ nonneg (cell (avg_loss closes) i).
Proof.
  apply rolling_mean_nonneg; [lia | apply losses_nonneg].
Qed.

Lemma rsi_of_finite (x y : Q) :
  (0 <= x)%Q -> (0 < y)%Q -> in_0_100 (rsi_of (Fin x) (Fin y)).
Proof.
  intros Hx Hy. unfold rsi_of, fsub. cbn [fdiv].
  assert (Ey : Qeq_bool y 0 = false).
  { destruct (Qeq_bool y 0) eqn:E; [|reflexivity].
    apply Qeq_bool_iff in E. lra. }
  rewrite Ey. cbn [fadd fdiv].
  assert (Hr : (0 <= x / y)%Q) by (apply Qle_shift_div_l; [assumption | lra]).
  set (s := Qred (1 + Qred (x / y))).
  assert (Hs : (s == 1 + x / y)%Q) by (unfold s; now rewrite !Qred_correct).
  assert (Es : Qeq_bool s 0 = false).
  { destruct (Qeq_bool s 0) eqn:E; [|reflexivity].
    apply Qeq_bool_iff in E. lra. }
  rewrite Es. cbn [fneg fadd].
  eexists. split; [reflexivity|].
  rewrite !Qred_correct.
  assert (Hpos : (0 < s)%Q) by lra.
  assert (H0 : (0 <= 100 / s)%Q) by (apply Qle_shift_div_l; [assumption | lra]).
  assert (H1 : (100 / s <= 100)%Q) by (apply Qle_shift_div_r; [assumption | lra]).
  split; lra.
Qed.

Lemma in_0_100_100 : in_0_100 (Fin 100).
Proof. exists 100%Q. split; [reflexivity | split; lra]. Qed.

Lemma in_0_100_0 : in_0_100 (Fin 0).
Proof. exists 0%Q. split; [reflexivity | split; lra]. Qed.

(** With no loss and some gain the index is 100. *)
Lemma rsi_of_no_loss (g l : float) :
  feq l (Fin 0) = true -> fgt g (Fin 0) = true -> rsi_of g l = Fin 100.
Proof.
  intros Hl Hg.
  destruct l as [| | |y]; try discriminate. simpl in Hl.
  destruct g as [| | |x]; try discriminate; unfold rsi_of; cbn [fdiv].
  - assert (E : Qlt_bool y 0 = false).
    { apply Qlt_bool_false. apply Qeq_bool_iff in Hl. lra. }
    rewrite E. reflexivity.
  - rewrite Hl. unfold signed_inf. unfold fgt in Hg. simpl in Hg.
    assert (E : Qeq_bool x 0 = false).
    { destruct (Qeq_bool x 0) eqn:E; [|reflexivity].
      apply Qeq_bool_iff in E. apply Qlt_bool_iff in Hg. lra. }
    rewrite E, Hg. reflexivity.
Qed.

(** With no loss and no gain the index is missing: [0 / 0]. *)
Lemma rsi_of_flat (g l : float) :
  feq l (Fin 0) = true -> feq g (Fin 0) = true -> rsi_of g l = NaN.
Proof.
  intros Hl Hg.
  destruct l as [| | |y]; try discriminate.
  destruct g as [| | |x]; try discriminate.
  simpl in Hl, Hg. unfold rsi_of. cbn [fdiv]. rewrite Hl.
  unfold signed_inf. rewrite Hg. reflexivity.
Qed.

Lemma rsi_of_range (g l : float) :
  g = NaN \/ nonneg g -> l = NaN \/ nonneg l ->
  rsi_of g l = NaN \/ in_0_100 (rsi_of g l).
Proof.
  intros [-> | [-> | (x & -> & Hx)]] [-> | [-> | (y & -> & Hy)]];
    try (left; reflexivity).
  - right. unfold rsi_of. cbn [fdiv].
    assert (E : Qlt_bool y 0 = false) by (apply Qlt_bool_false; lra).
    rewrite E. apply in_0_100_100.
  - right. apply in_0_100_0.
  - destruct (Qeq_bool y 0) eqn:Ey.
    + destruct (Qeq_bool x 0) eqn:Ex.
      * left. apply rsi_of_flat; assumption.
      * right. rewrite rsi_of_no_loss; [apply in_0_100_100 | assumption |].
        unfold fgt. simpl. apply Qlt_bool_iff.
        apply Qeq_bool_false in Ex. lra.
    + right. apply rsi_of_finite; [assumption|].
      apply Qeq_bool_false in Ey. lra.
Qed.


Lemma map_cell_seq (col : list float) :
  map (cell col) (seq 0 (List.length col)) = col.
Proof.
  apply (nth_ext _ _ NaN NaN).
  - now rewrite length_map, length_seq.
  - intros i Hi. rewrite length_map, length_seq in Hi.
    rewrite nth_map_seq. apply Nat.ltb_lt in Hi. now rewrite Hi.
Qed.

Lemma rsi_col_length (closes : list float) :
  List.length (rsi_col closes) = List.length closes.
Proof.
  unfold rsi_col. rewrite zip_with_length by apply avg_lengths.
  unfold avg_gain, gains, diff.
  rewrite rolling_length, length_map, zip_with_length;
    [reflexivity | now rewrite shift1_length].
Qed.

(** The [rsi] column of the engineered frame is the index of its closes. *)
Lemma engineer_features_rsi (sqrtQ : Q -> Q) (df : list Bar) :
  map rsi (engineer_features sqrtQ df) = rsi_col (map close df).
Proof.
  unfold engineer_features. cbv zeta. rewrite map_map. cbn [rsi].
  rewrite <- (length_map close df), <- rsi_col_length.
  apply map_cell_seq.
Qed.

(** C7, as the code has it: in the frame [engineer_features] returns, the
    RSI of a row is missing or a number between 0 and 100; where the
    14-day average loss is 0 and the average gain is above 0 it is 100; and
    where both averages are 0 (fourteen days without a move) it is missing,
    the quotient being [0 / 0]. *)
Theorem rsi_range_and_no_loss (sqrtQ : Q -> Q) (df : list Bar) (i : nat) :
  let closes := map close df in
  let r := cell (map rsi (engineer_features sqrtQ df)) i in
  (r = NaN \/ in_0_100 r)
  /\ (feq (cell (avg_loss closes) i) (Fin 0) = true ->
      fgt (cell (avg_gain closes) i) (Fin 0) = true -> r = Fin 100)
  /\ (feq (cell (avg_loss closes) i) (Fin 0) = true ->
      feq (cell (avg_gain closes) i) (Fin 0) = true -> r = NaN).
Proof.
  cbv zeta. rewrite engineer_features_rsi, cell_rsi_col. repeat split.
  - apply rsi_of_range; [apply avg_gain_cell | apply avg_loss_cell].
  - intros Hl Hg. now apply rsi_of_no_loss.
  - intros Hl Hg. now apply rsi_of_flat.
Qed.

(** On fifteen rising days the last row has no loss behind it and an RSI
    of 100. *)
Lemma rsi_range_and_no_loss_witness :
  cell (map rsi (engineer_features (fun q => q) rising_bars)) 14 = Fin 100.
Proof.
  apply (proj1 (proj2 (rsi_range_and_no_loss (fun q => q) rising_bars 14)));
    vm_compute; reflexivity.
Defined.

(** C7 as the spec has it fails on fifteen flat days: the frame is clean
    (cleaning returns it as it is), the average loss of the last row is 0,
    and its RSI is missing, not 100. *)
Lemma rsi_flat_window_counterexample :
  clean_stock_data flat_bars = flat_bars
  /\ cell (avg_loss (map close flat_bars)) 14 = Fin 0
  /\ cell (map rsi (engineer_features (fun q => q) flat_bars)) 14 = NaN
  /\ cell (map rsi (engineer_features (fun q => q) flat_bars)) 14
     <> Fin 100.
Proof.
  repeat split; try (vm_compute; reflexivity).
  vm_compute. discriminate.
Qed.

(** ** The order selector *)

Lemma fle_flt_trans (a b c : float) :
  fle a b = true -> flt b c = true -> flt a c = true.
Proof.
  destruct a, b, c; simpl; intros H1 H2; try discriminate; auto.
  apply Qle_bool_iff in H1. apply Qlt_bool_iff in H2.
  apply Qlt_bool_iff. lra.
Qed.

Lemma flt_fle (a b : float) : flt a b = true -> fle a b = true.
Proof.
  destruct a, b; simpl; intros H; try discriminate; auto.
  apply Qlt_bool_iff in H. apply Qle_bool_iff. lra.
Qed.

Lemma fold_left_flat_map {A B C : Type} (f : A -> C -> A) (g : B -> list C)
    (l : list B) :
  forall a, fold_left f (flat_map g l) a
            = fold_left (fun a x => fold_left f (g x) a) l a.
Proof.
  induction l as [|x l IH]; simpl; intros a; [reflexivity|].
  now rewrite fold_left_app, IH.
Qed.

Lemma fold_left_map {A B C : Type} (f : A -> C -> A) (g : B -> C)
    (l : list B) :
  forall a, fold_left f (map g l) a = fold_left (fun a x => f a (g x)) l a.
Proof.
  induction l as [|x l IH]; simpl; intros a; [reflexivity | apply IH].
Qed.

Lemma fold_left_ext {A B : Type} (f g : A -> B -> A) (l : list B) :
  (forall a x, f a x = g a x) ->
  forall a, fold_left f l a = fold_left g l a.
Proof.
  intros H. induction l as [|x l IH]; simpl; intros a; [reflexivity|].
  now rewrite H, IH.
Qed.

(** The nested loops visit the candidates of [grid] one after the other. *)
Lemma grid_search_grid (fit_aic : list float -> order -> option float)
    (timeseries : list float) (max_p max_d max_q : Z) :
  grid_search fit_aic timeseries max_p max_d max_q
  = fold_left (try_candidate fit_aic timeseries) (grid max_p max_d max_q)
      (PInf, None).
Proof.
  unfold grid_search, grid. rewrite fold_left_flat_map.
  apply fold_left_ext. intros best p. rewrite fold_left_flat_map.
  apply fold_left_ext. intros best' d. now rewrite fold_left_map.
Qed.

Lemma in_range0 (n x : Z) : In x (range0 n) <-> 0 <= x < n.
Proof.
  unfold range0. rewrite in_map_iff. split.
  - intros (k & <- & Hk). apply in_seq in Hk. lia.
  - intros H. exists (Z.to_nat x). split; [lia|]. apply in_seq. lia.
Qed.

Lemma in_grid (max_p max_d max_q p d q : Z) :
  In (p, d, q) (grid max_p max_d max_q) <->
  0 <= p <= max_p /\ 0 <= d <= max_d /\ 0 <= q <= max_q.
Proof.
  unfold grid. rewrite in_flat_map. split.
  - intros (p' & Hp & H). apply in_flat_map in H. destruct H as (d' & Hd & H).
    apply in_map_iff in H. destruct H as (q' & [= -> -> ->] & Hq).
    apply in_range0 in Hp, Hd, Hq. lia.
  - intros (Hp & Hd & Hq). exists p. split; [apply in_range0; lia|].
    apply in_flat_map. exists d. split; [apply in_range0; lia|].
    apply in_map. apply in_range0. lia.
Qed.

Lemma StronglySorted_app {A : Type} (R : A -> A -> Prop) (l1 l2 : list A) :
  StronglySorted R l1 -> StronglySorted R l2 ->
  (forall a b, In a l1 -> In b l2 -> R a b) ->
  StronglySorted R (l1 ++ l2).
Proof.
  induction l1 as [|x l1 IH]; simpl; intros H1 H2 H; [assumption|].
  inversion H1 as [|? ? Hs Hall]; subst.
  constructor; [apply IH; auto|].
  apply Forall_app. split; [assumption|].
  apply Forall_forall. intros b Hb. apply H; auto.
Qed.

Lemma StronglySorted_flat_map {A : Type} (R : A -> A -> Prop)
    (g : Z -> list A) (l : list Z) :
  StronglySorted Z.lt l ->
  (forall x, StronglySorted R (g x)) ->
  (forall x y a b, x < y -> In a (g x) -> In b (g y) -> R a b) ->
  StronglySorted R (flat_map g l).
Proof.
  intros Hl Hg Hcross. induction l as [|x l IH]; simpl; [constructor|].
  inversion Hl as [|? ? Hs Hall]; subst.
  apply StronglySorted_app; [apply Hg | now apply IH |].
  intros a b Ha Hb. apply in_flat_map in Hb. destruct Hb as (y & Hy & Hb).
  rewrite Forall_forall in Hall. eapply Hcross; eauto.
Qed.

Lemma StronglySorted_map_lt {A : Type} (R : A -> A -> Prop) (g : Z -> A)
    (l : list Z) :
  StronglySorted Z.lt l -> (forall x y, x < y -> R (g x) (g y)) ->
  StronglySorted R (map g l).
Proof.
  intros Hl Hg. induction l as [|x l IH]; simpl; [constructor|].
  inversion Hl as [|? ? Hs Hall]; subst.
  constructor; [now apply IH|].
  rewrite Forall_forall in *. intros b Hb.
  apply in_map_iff in Hb. destruct Hb as (y & <- & Hy). auto.
Qed.

Lemma range0_sorted (n : Z) : StronglySorted Z.lt (range0 n).
Proof.
  unfold range0. generalize 0%nat as s.
  induction (Z.to_nat n) as [|k IH]; simpl; intros s; [constructor|].
  constructor; [apply IH|].
  apply Forall_forall. intros x Hx.
  apply in_map_iff in Hx. destruct Hx as (j & <- & Hj).
  apply in_seq in Hj. lia.
Qed.

(** The loops visit the candidates in ascending order of [p], then [d],
    then [q]. *)
Lemma grid_sorted (max_p max_d max_q : Z) :
  StronglySorted order_lt (grid max_p max_d max_q).
Proof.
  unfold grid. apply StronglySorted_flat_map.
  - apply range0_sorted.
  - intros p. apply StronglySorted_flat_map.
    + apply range0_sorted.
    + intros d. apply StronglySorted_map_lt; [apply range0_sorted|].
      intros q q' Hq. simpl. lia.
    + intros d d' a b Hd Ha Hb.
      apply in_map_iff in Ha, Hb.
      destruct Ha as (q & <- & _), Hb as (q' & <- & _). simpl. lia.
  - intros p p' a b Hp Ha Hb.
    apply in_flat_map in Ha, Hb.
    destruct Ha as (d & _ & Ha), Hb as (d' & _ & Hb).
    apply in_map_iff in Ha, Hb.
    destruct Ha as (q & <- & _), Hb as (q' & <- & _). simpl. lia.
Qed.

Lemma not_below_new_best (a x best : float) :
  flt x best = true -> flt a best = false -> fle a x = false.
Proof.
  intros Hx Ha. destruct (fle a x) eqn:E; [|reflexivity].
  rewrite (fle_flt_trans _ _ _ E Hx) in Ha. discriminate.
Qed.

Lemma search_inv_step (fit_aic : list float -> order -> option float)
    (ts : list float) (visited : list order) (best : float * option order)
    (x : order) :
  search_inv (fit_aic ts) visited best ->
  search_inv (fit_aic ts) (visited ++ [x]) (try_candidate fit_aic ts best x).
Proof.
  destruct best as [aic [b|]]; unfold search_inv, try_candidate; simpl.
  - intros (before & after & -> & Hb & Hbefore & Hafter).
    destruct (fit_aic ts x) as [ax|] eqn:Ex.
    + destruct (flt ax aic) eqn:Elt; simpl.
      * exists (before ++ b :: after), []. repeat split.
        -- assumption.
        -- intros c a Hc Hfit. apply in_app_or in Hc.
           destruct Hc as [Hc | [<- | Hc]].
           ++ apply (not_below_new_best _ _ aic); [assumption|].
              destruct (flt a aic) eqn:E; [|reflexivity].
              apply flt_fle in E. rewrite (Hbefore c a Hc Hfit) in E.
              discriminate.
           ++ rewrite Hb in Hfit. injection Hfit as <-.
              now apply flt_fle_false.
           ++ apply (not_below_new_best _ _ aic); eauto.
        -- intros c a [].
      * exists before, (after ++ [x]). repeat split.
        -- now rewrite <- app_assoc.
        -- assumption.
        -- assumption.
        -- intros c a Hc Hfit. apply in_app_or in Hc.
           destruct Hc as [Hc | [<- | []]]; [eauto|]. congruence.
    + exists before, (after ++ [x]). repeat split.
      * now rewrite <- app_assoc.
      * assumption.
      * assumption.
      * intros c a Hc Hfit. apply in_app_or in Hc.
        destruct Hc as [Hc | [<- | []]]; [eauto|]. congruence.
  - intros [-> Hnone].
    destruct (fit_aic ts x) as [ax|] eqn:Ex.
    + destruct (flt ax PInf) eqn:Elt; simpl.
      * exists visited, []. repeat split.
        -- assumption.
        -- intros c a Hc Hfit.
           apply (not_below_new_best _ _ PInf); eauto.
        -- intros c a [].
      * split; [reflexivity|]. intros c a Hc Hfit. apply in_app_or in Hc.
        destruct Hc as [Hc | [<- | []]]; [eauto|]. congruence.
    + split; [reflexivity|]. intros c a Hc Hfit. apply in_app_or in Hc.
      destruct Hc as [Hc | [<- | []]]; [eauto|]. congruence.
Qed.

Lemma search_inv_fold (fit_aic : list float -> order -> option float)
    (ts : list float) (todo : list order) :
  forall visited best,
    search_inv (fit_aic ts) visited best ->
    search_inv (fit_aic ts) (visited ++ todo)
      (fold_left (try_candidate fit_aic ts) todo best).
Proof.
  induction todo as [|x todo IH]; simpl; intros visited best H.
  - now rewrite app_nil_r.
  - change (x :: todo) with ([x] ++ todo). rewrite app_assoc.
    apply IH. now apply search_inv_step.
Qed.

Lemma grid_search_inv (fit_aic : list float -> order -> option float)
    (ts : list float) (max_p max_d max_q : Z) :
  search_inv (fit_aic ts) (grid max_p max_d max_q)
    (grid_search fit_aic ts max_p max_d max_q).
Proof.
  rewrite grid_search_grid.
  apply (search_inv_fold fit_aic ts (grid max_p max_d max_q) [] (PInf, None)).
  split; [reflexivity|]. intros c a [].
Qed.



(** ** The sync controller *)

Ltac log_prefix l base :=
  lazymatch l with
  | base => constr:(@nil (level * msg))
  | ?e :: ?l' => let p := log_prefix l' base in constr:(e :: p)
  end.

Ltac give_new_logs :=
  lazymatch goal with
  | |- exists new, ?l = new ++ ?base /\ _ =>
      let p := log_prefix l base in exists p; split; [reflexivity|]
  end.

Ltac finish_run :=
  do 2 eexists; (split; [reflexivity|]);
  cbn [stocks stocks_clean requests logs];
  (split; [reflexivity|]);
  (split; [give_new_logs; split; reflexivity|]);
  auto.

(** One run of [update_stock_data]: it never raises; what it requests,
    writes and logs. *)
Lemma update_stock_data_run (env : Env) (s : string) (force : bool)
    (w : World) :
  exists b w',
    update_stock_data env s force w = (Ok b, w')
    /\ stocks_clean w' = stocks_clean w
    /\ (exists new, logs w' = new ++ logs w
                    /\ count_failures new = (if b then 0 else 1)%nat
                    /\ processed new = [])
    /\ match spec_window env s force w with
       | None => b = true /\ stocks w' = stocks w
                 /\ requests w' = requests w
       | Some k =>
           requests w' = (s, today env - k, today env + 1) :: requests w
           /\ match provider env s (today env - k) (today env + 1) with
              | Ok (x :: data) =>
                  if to_sql_raises env T_stocks
                  then b = false /\ stocks w' = stocks w
                  else b = true
                       /\ stocks w' = stocks w
                            ++ drop_duplicates (map (set_symbol s) (x :: data))
              | _ => b = false /\ stocks w' = stocks w
              end
       end.
Proof.
  destruct w as [st sc rq lg].
  unfold update_stock_data, get_latest_data_date, execute_query_max_date,
    fetch_and_insert, fetch_latest_data, insert_dataframe, to_sql_append,
    history, spec_window, stored_latest, try_except, bind, ret, raise, logger.
  cbn [stocks stocks_clean requests logs].
  destruct (execute_raises env); cbn [stocks stocks_clean requests logs].
  - destruct (provider env s (today env - MAX_DAYS_BACK) (today env + 1))
      as [[|x data]|e]; cbn [empty map stocks stocks_clean requests logs];
      [ | set (rows := drop_duplicates
                         (set_symbol s x :: map (set_symbol s) data));
          destruct (to_sql_raises env T_stocks) | ];
      finish_run.
  - destruct (max_date s st) as [latest|].
    + destruct ((today env - latest =? 0) && negb force); [finish_run|].
      set (k := Z.min (today env - latest + 2) MAX_DAYS_BACK).
      destruct ((today env - latest >? 7) && negb force);
        cbn [stocks stocks_clean requests logs];
        (destruct (provider env s (today env - k) (today env + 1))
           as [[|x data]|e];
         cbn [empty map stocks stocks_clean requests logs];
         [ | set (rows := drop_duplicates
                            (set_symbol s x :: map (set_symbol s) data));
             destruct (to_sql_raises env T_stocks) | ]);
        finish_run.
    + destruct (provider env s (today env - MAX_DAYS_BACK) (today env + 1))
        as [[|x data]|e]; cbn [empty map stocks stocks_clean requests logs];
        [ | set (rows := drop_duplicates
                           (set_symbol s x :: map (set_symbol s) data));
            destruct (to_sql_raises env T_stocks) | ];
        finish_run.
Qed.

(** What [get_latest_data_date] returns is [stored_latest]; it never
    raises and touches neither table. *)
Lemma get_latest_data_date_stored (env : Env) (s : string) (w : World) :
  fst (get_latest_data_date env s w) = Ok (stored_latest env s w)
  /\ stocks (snd (get_latest_data_date env s w)) = stocks w
  /\ requests (snd (get_latest_data_date env s w)) = requests w.
Proof.
  unfold get_latest_data_date, execute_query_max_date, stored_latest,
    try_except, bind, ret, raise, logger.
  destruct (execute_raises env); simpl; auto.
Qed.

(** C5: with a stored latest date, a sync whose date is today and that is
    not forced fetches nothing, writes nothing and reports success; any other
    sync asks the provider for the window that starts
    [min (days_since + 2, MAX_DAYS_BACK)] days before today and ends today
    (the provider's end date, exclusive, is tomorrow); with no stored date
    the window starts [MAX_DAYS_BACK] days before today.  So a latest date of
    three days ago gives a window that starts five days ago. *)
Theorem update_stock_data_window (env : Env) (s : string) (force : bool)
    (w : World) :
  let out := update_stock_data env s force w in
  match stored_latest env s w with
  | Some latest =>
      let days_since := today env - latest in
      if (days_since =? 0) && negb force
      then fst out = Ok true
           /\ requests (snd out) = requests w
           /\ stocks (snd out) = stocks w
      else requests (snd out)
           = (s, today env - Z.min (days_since + 2) MAX_DAYS_BACK,
              today env + 1) :: requests w
  | None =>
      requests (snd out)
      = (s, today env - MAX_DAYS_BACK, today env + 1) :: requests w
  end
  /\ (stored_latest env s w = Some (today env - 3) ->
      requests (snd out) = (s, today env - 5, today env + 1) :: requests w).
Proof.
  cbv zeta.
  destruct (update_stock_data_run env s force w)
    as (b & w' & -> & _ & _ & Hw).
  unfold spec_window in Hw. cbn [fst snd].
  destruct (stored_latest env s w) as [latest|].
  - split.
    + destruct ((today env - latest =? 0) && negb force).
      * destruct Hw as (-> & -> & ->). auto.
      * now destruct Hw as [-> _].
    + intros [= ->].
      replace (today env - (today env - 3)) with 3 in Hw by lia.
      simpl in Hw. now destruct Hw as [-> _].
  - split; [now destruct Hw as [-> _] | discriminate].
Qed.

(** On day 10 with a latest stored bar of day 7 the sync asks for the days
    5 to 10. *)
Lemma update_stock_data_window_witness :
  requests (snd (update_stock_data (env_answering 10 (Ok [sample_bar 9]))
                   "AAPL" false (world_with [sample_bar 7])))
  = [("AAPL"%string, 5, 11)].
Proof.
  apply (proj2 (update_stock_data_window (env_answering 10 (Ok [sample_bar 9]))
                  "AAPL" false (world_with [sample_bar 7]))).
  reflexivity.
Defined.




(** C1 (the code departs from it): the store holds one bar of AAPL for
    day 9 and the provider has that bar; two syncs on day 10 ask for the same
    window, both report success, and the store ends with three rows of
    (AAPL, 9) where it had one. *)
Theorem resync_appends_duplicates :
  let env := env_answering 10 (Ok [sample_bar 9]) in
  let w0 := world_with [sample_bar 9] in
  let run1 := update_stock_data env "AAPL" false w0 in
  let run2 := update_stock_data env "AAPL" false (snd run1) in
  NoDup (map key (stocks w0))
  /\ fst run1 = Ok true /\ fst run2 = Ok true
  /\ requests (snd run2) = [("AAPL"%string, 7, 11); ("AAPL"%string, 7, 11)]
  /\ stocks (snd run2) = [sample_bar 9; sample_bar 9; sample_bar 9]
  /\ ~ NoDup (map key (stocks (snd run2))).
Proof.
  cbv zeta. split; [repeat constructor; simpl; tauto|].
  repeat split; try reflexivity.
  intros H. vm_compute in H. inversion H as [|? ? Hin _]; subst.
  apply Hin. now left.
Qed.

(** ** The batch *)

Lemma max_date_other_rows (s : string) (rows : list Bar) :
  (forall r, In r rows -> symbol r <> s) ->
  forall st, max_date s (st ++ rows) = max_date s st.
Proof.
  intros Hrows st. unfold max_date. rewrite fold_left_app.
  generalize (fold_left
    (fun acc r => if String.eqb (symbol r) s
                  then Some match acc with
                            | Some d => Z.max d (date r)
                            | None => date r
                            end
                  else acc) st None) as acc.
  induction rows as [|r rows IH]; simpl; intros acc; [reflexivity|].
  assert (E : String.eqb (symbol r) s = false).
  { apply String.eqb_neq. apply Hrows. now left. }
  rewrite E. apply IH. intros r' Hr'. apply Hrows. now right.
Qed.

Lemma no_rows_fetched_stocks (env : Env) (force : bool) (w1 w2 : World)
    (s : string) :
  max_date s (stocks w1) = max_date s (stocks w2) ->
  no_rows_fetched env force w1 s = no_rows_fetched env force w2 s.
Proof.
  intros H. unfold no_rows_fetched, spec_window, stored_latest. now rewrite H.
Qed.

(** A sync of one symbol leaves the latest stored date of every other
    symbol as it was. *)
Lemma update_stock_data_other_symbol (env : Env) (s s' : string)
    (force : bool) (w : World) :
  s' <> s ->
  max_date s' (stocks (snd (update_stock_data env s force w)))
  = max_date s' (stocks w).
Proof.
  intros Hne.
  destruct (update_stock_data_run env s force w)
    as (b & w' & -> & _ & _ & Hw). cbn [snd].
  destruct (spec_window env s force w) as [k|];
    [|now destruct Hw as (_ & -> & _)].
  destruct Hw as [_ Hw].
  destruct (provider env s (today env - k) (today env + 1))
    as [[|x data]|e]; try (now destruct Hw as [_ ->]).
  destruct (to_sql_raises env T_stocks); destruct Hw as [_ ->];
    [reflexivity|].
  apply max_date_other_rows. intros r Hr.
  apply drop_duplicates_from_In in Hr. destruct Hr as [Hr _].
  apply in_map_iff in Hr. destruct Hr as (r0 & <- & _). simpl. congruence.
Qed.

Lemma count_failures_app (a b : list (level * msg)) :
  count_failures (a ++ b) = (count_failures a + count_failures b)%nat.
Proof. unfold count_failures. now rewrite filter_app, length_app. Qed.

Lemma processed_app (a b : list (level * msg)) :
  processed (a ++ b) = processed b ++ processed a.
Proof. unfold processed. now rewrite rev_app_distr, flat_map_app. Qed.

(** With a working store, a sync fails exactly when a fetch is due and no
    row comes back. *)
Lemma update_stock_data_result (env : Env) (s : string) (force : bool)
    (w : World) :
  to_sql_raises env T_stocks = false ->
  fst (update_stock_data env s force w)
  = Ok (negb (no_rows_fetched env force w s)).
Proof.
  intros Hdb.
  destruct (update_stock_data_run env s force w)
    as (b & w' & -> & _ & _ & Hw). cbn [fst].
  unfold no_rows_fetched. rewrite Hdb in Hw.
  destruct (spec_window env s force w) as [k|];
    [|now destruct Hw as (-> & _)].
  destruct Hw as [_ Hw].
  destruct (provider env s (today env - k) (today env + 1))
    as [[|x data]|e]; now destruct Hw as [-> _].
Qed.

Lemma update_loop_run (env : Env) (force : bool) (total : nat)
    (tickers : list string) :
  forall (i sc : nat) (w : World),
  exists n w' new,
    update_loop env force total i tickers sc w = (Ok n, w')
    /\ logs w' = new ++ logs w
    /\ processed new = tickers
    /\ (n + count_failures new = sc + List.length tickers)%nat
    /\ (NoDup tickers -> to_sql_raises env T_stocks = false ->
        count_failures new
        = List.length (filter (no_rows_fetched env force w) tickers)).
Proof.
  induction tickers as [|s rest IH]; intros i sc w.
  - exists sc, w, []. simpl. repeat split; auto.
  - cbn [update_loop]. unfold bind at 1. unfold logger at 1.
    set (w0 := mkWorld (stocks w) (stocks_clean w) (requests w)
                 ((INFO, Processing s i total) :: logs w)).
    unfold bind at 1.
    pose proof (update_stock_data_result env s force w0) as Hres.
    pose proof (update_stock_data_other_symbol env s) as Hother.
    destruct (update_stock_data_run env s force w0)
      as (b & w1 & Hrun & _ & (new_s & Hlogs & Hcount & Hproc) & _).
    rewrite Hrun in *. cbn [fst snd] in *.
    destruct (IH (S i) (if b then S sc else sc) w1)
      as (n & w2 & new_rest & Hloop & Hlogs2 & Hproc2 & Hsum & Hfail).
    exists n, w2, (new_rest ++ new_s ++ [(INFO, Processing s i total)]).
    split; [exact Hloop|]. split.
    { rewrite Hlogs2, Hlogs. unfold w0. cbn [logs].
      now rewrite <- !app_assoc. }
    split.
    { rewrite !processed_app, Hproc, Hproc2. reflexivity. }
    split.
    { rewrite !count_failures_app, Hcount. cbn [List.length].
      change (count_failures [(INFO, Processing s i total)]) with 0%nat.
      destruct b; lia. }
    intros Hnd Hdb. apply NoDup_cons_iff in Hnd. destruct Hnd as [Hs Hnd'].
    rewrite !count_failures_app, Hcount, (Hfail Hnd' Hdb).
    change (count_failures [(INFO, Processing s i total)]) with 0%nat.
    specialize (Hres Hdb). injection Hres as ->.
    assert (E0 : no_rows_fetched env force w0 s = no_rows_fetched env force w s)
      by (apply no_rows_fetched_stocks; reflexivity).
    assert (Erest : filter (no_rows_fetched env force w1) rest
                    = filter (no_rows_fetched env force w) rest).
    { apply filter_ext_in. intros s' Hs'.
      apply no_rows_fetched_stocks.
      assert (Hne : s' <> s) by (intros ->; contradiction).
      pose proof (Hother s' force w0 Hne) as Hsame.
      rewrite Hrun in Hsame. exact Hsame. }
    rewrite Erest, E0. cbn [filter].
    destruct (no_rows_fetched env force w s); cbn [negb List.length]; lia.
Qed.

(** The configured tickers are fifty distinct symbols. *)
Lemma TOP_50_TICKERS_distinct :
  NoDup TOP_50_TICKERS /\ List.length TOP_50_TICKERS = 50%nat.
Proof.
  split; [|reflexivity].
  assert (E : nodup string_dec TOP_50_TICKERS = TOP_50_TICKERS)
    by (vm_compute; reflexivity).
  rewrite <- E. apply NoDup_nodup.
Qed.

(** The symbols without a fetched row are those that fail at the provider
    and those the provider has nothing for. *)
Lemma no_rows_fetched_count (env : Env) (force : bool) (w : World)
    (tickers : list string) :
  List.length (filter (no_rows_fetched env force w) tickers)
  = (List.length (filter (provider_raises env force w) tickers)
     + List.length (filter (provider_empty env force w) tickers))%nat.
Proof.
  induction tickers as [|s rest IH]; [reflexivity|]. cbn [filter].
  unfold no_rows_fetched at 1, provider_raises at 1, provider_empty at 1.
  destruct (spec_window env s force w) as [k|]; [|exact IH].
  destruct (provider env s (today env - k) (today env + 1))
    as [[|x data]|e]; cbn [List.length]; lia.
Qed.

(** C9: a batch over any list of tickers, in any environment, does not
    raise; every ticker is processed, in the order of the list, whatever
    happened to the ones before it; the count of successes it reports and
    the failures it logged add up to the number of tickers.  With distinct
    tickers and a store that accepts the rows, the logged failures are the
    [m] symbols that fail at the provider (a fetch is due and the provider
    raises) together with the [e] symbols the provider has no row for, and
    the reported count is the number of tickers less [m] and less [e]. *)
Theorem update_all_stocks_soft (env : Env) (tickers : list string)
    (force : bool) (w : World) :
  exists n w' new,
    update_all_stocks env tickers force w = (Ok tt, w')
    /\ logs w' = (INFO, UpdateCompleted n (List.length tickers))
                 :: new ++ (INFO, StartingUpdate force) :: logs w
    /\ processed new = tickers
    /\ (n + count_failures new = List.length tickers)%nat
    /\ (NoDup tickers -> to_sql_raises env T_stocks = false ->
        let m := List.length (filter (provider_raises env force w) tickers) in
        let e := List.length (filter (provider_empty env force w) tickers) in
        count_failures new = (m + e)%nat
        /\ n = (List.length tickers - m - e)%nat).
Proof.
  unfold update_all_stocks, bind at 1, logger at 1.
  set (w0 := mkWorld (stocks w) (stocks_clean w) (requests w)
               ((INFO, StartingUpdate force) :: logs w)).
  destruct (update_loop_run env force (List.length tickers) tickers 1 0 w0)
    as (n & w1 & new & Hloop & Hlogs & Hproc & Hsum & Hfail).
  unfold bind. rewrite Hloop. unfold logger.
  eexists n, _, new. split; [reflexivity|]. cbn [logs].
  split; [now rewrite Hlogs|]. split; [assumption|].
  split; [lia|]. intros Hnd Hdb. cbv zeta.
  specialize (Hfail Hnd Hdb).
  assert (E : filter (no_rows_fetched env force w0) tickers
              = filter (no_rows_fetched env force w) tickers).
  { apply filter_ext. intros s. now apply no_rows_fetched_stocks. }
  rewrite E, no_rows_fetched_count in Hfail. split; [assumption | lia].
Qed.

(** A batch of four tickers on day 10 of which MSFT raises at the provider
    and GOOGL has no rows: two failures are logged and two successes
    reported. *)
Lemma update_all_stocks_soft_witness :
  exists n w' new,
    update_all_stocks (env_two_failing 10)
      ["AAPL"; "MSFT"; "GOOGL"; "AMZN"]%string false (world_with [])
    = (Ok tt, w')
    /\ logs w' = (INFO, UpdateCompleted n 4)
                 :: new ++ [(INFO, StartingUpdate false)]
    /\ count_failures new = 2%nat /\ n = 2%nat.
Proof.
  destruct (update_all_stocks_soft (env_two_failing 10)
              ["AAPL"; "MSFT"; "GOOGL"; "AMZN"]%string false (world_with []))
    as (n & w' & new & Hrun & Hlogs & _ & _ & Hcount).
  exists n, w', new. split; [exact Hrun|]. split; [exact Hlogs|].
  apply Hcount.
  - repeat constructor; simpl; intuition discriminate.
  - reflexivity.
Defined.

(** A batch of one ticker for which the provider answers without a row and
    without an error: no symbol fails at the provider, and yet the batch
    reports 0 successes of 1 and logs one failure. *)
Lemma update_all_stocks_empty_answer_counterexample :
  let env := env_answering 10 (Ok []) in
  let tickers := ["AAPL"%string] in
  let w := world_with [] in
  filter (provider_raises env false w) tickers = []
  /\ exists new,
       logs (snd (update_all_stocks env tickers false w))
       = (INFO, UpdateCompleted 0 1) :: new ++ [(INFO, StartingUpdate false)]
       /\ count_failures new = 1%nat.
Proof.
  cbv zeta. split; [reflexivity|].
  eexists [_; _; _; _; _]. split; reflexivity.
Qed.

(** ** Saving the engineered frame *)

Lemma drop_duplicates_clean_from_In (df : list CleanRow) :
  forall seen r, In r (drop_duplicates_clean_from seen df) -> In r df.
Proof.
  induction df as [|x df IH]; simpl; intros seen r H; [contradiction|].
  destruct (key_mem (c_key x) seen).
  - right. eapply IH. exact H.
  - destruct H as [<- | H]; [now left | right; eapply IH; exact H].
Qed.

Lemma engineer_features_length (sqrtQ : Q -> Q) (df : list Bar) :
  List.length (engineer_features sqrtQ df) = List.length df.
Proof.
  unfold engineer_features. cbv zeta. now rewrite length_map, length_seq.
Qed.

(** The 20-day average of the row at position [i] of the engineered
    frame. *)
Lemma engineer_features_ma_20 (sqrtQ : Q -> Q) (df : list Bar) (i : nat)
    (f : FeatRow) :
  nth_error (engineer_features sqrtQ df) i = Some f ->
  (i < List.length df)%nat /\ ma_20 f = cell (ma 20 df) i.
Proof.
  unfold engineer_features. cbv zeta. rewrite nth_error_map, nth_error_seq.
  destruct (i <? List.length df)%nat eqn:E; [|discriminate].
  simpl. intros [= <-]. apply Nat.ltb_lt in E. auto.
Qed.

(** What [save_cleaned_data] leaves in [stocks_clean]: the rows that were
    there and, when the insert goes through, the complete rows of the
    frame. *)
Lemma save_cleaned_data_stocks_clean (env : Env) (df : list FeatRow)
    (s : string) (w : World) (row : CleanRow) :
  In row (stocks_clean (snd (save_cleaned_data env df s w))) ->
  In row (stocks_clean w)
  \/ exists f, In f df /\ row_complete f = true /\ row = to_save f.
Proof.
  destruct w as [st sc rq lg].
  unfold save_cleaned_data, insert_dataframe, to_sql_append, try_except,
    bind, ret, raise, logger.
  destruct (empty df); cbn [negb stocks stocks_clean requests logs snd];
    [auto|].
  destruct (to_sql_raises env T_stocks_clean);
    cbn [stocks stocks_clean requests logs snd]; [auto|].
  intros H. apply in_app_or in H. destruct H as [H | H]; [now left|].
  right. apply drop_duplicates_clean_from_In in H.
  apply in_map_iff in H. destruct H as (f & <- & Hf).
  apply filter_In in Hf. exists f. tauto.
Qed.

(** C10: after [save_cleaned_data] on the frame [engineer_features]
    returns, every row of [stocks_clean] that was not there before comes
    from a row of the frame with no missing cell in any column (the RSI, the
    volatilities and the volume average among them), at position 19 or
    later, and its ma_5, ma_10, ma_20 and daily_return are not missing: the
    first nineteen rows of a frame are never written. *)
Theorem save_cleaned_data_complete_rows (sqrtQ : Q -> Q) (env : Env)
    (df : list Bar) (s : string) (w : World) (row : CleanRow) :
  let feats := engineer_features sqrtQ df in
  In row (stocks_clean (snd (save_cleaned_data env feats s w))) ->
  In row (stocks_clean w)
  \/ (exists i f,
        (19 <= i < List.length df)%nat
        /\ nth_error feats i = Some f
        /\ row_complete f = true
        /\ row = to_save f
        /\ features_notnull row).
Proof.
  cbv zeta. intros H. apply save_cleaned_data_stocks_clean in H.
  destruct H as [H | (f & Hf & Hc & ->)]; [now left | right].
  apply In_nth_error in Hf. destruct Hf as (i & Hi).
  destruct (engineer_features_ma_20 sqrtQ df i f Hi) as [Hlen Hma].
  pose proof Hc as Hc'. unfold row_complete in Hc'.
  rewrite !andb_true_iff in Hc'.
  destruct Hc' as [[[[[[[[[[_ H5] H10] H20] Hret] _] _] _] _] _] _].
  exists i, f. repeat split; try assumption.
  destruct (Nat.le_gt_cases 19 i) as [Hge | Hlt]; [assumption|].
  rewrite Hma in H20. unfold ma in H20.
  rewrite cell_rolling_short in H20 by lia. discriminate.
Qed.

(** On twenty-five rising days the first row written is the one of
    position 19, with its four engineered columns. *)
Lemma save_cleaned_data_complete_rows_witness :
  let env := env_answering 30 (Ok []) in
  let feats := engineer_features (fun q => q) rising_bars_25 in
  exists row,
    hd_error (stocks_clean (snd (save_cleaned_data env feats "AAPL"
                                   (world_with []))))
    = Some row
    /\ c_date row = 20
    /\ (In row []
        \/ exists i f,
             (19 <= i < 25)%nat
             /\ nth_error feats i = Some f
             /\ row_complete f = true
             /\ row = to_save f
             /\ features_notnull row).
Proof.
  cbv zeta. eexists. split; [vm_compute; reflexivity|].
  split; [reflexivity|].
  apply (save_cleaned_data_complete_rows (fun q => q)
           (env_answering 30 (Ok [])) rising_bars_25 "AAPL" (world_with [])).
  vm_compute. left. reflexivity.
Defined.

(** * Further properties of the code *)

(** ** The latest stored date *)

Lemma max_date_snoc (s : string) (rows : list Bar) (r : Bar) :
  max_date s (rows ++ [r])
  = if String.eqb (symbol r) s
    then Some (match max_date s rows with
               | None => date r
               | Some d => Z.max d (date r)
               end)
    else max_date s rows.
Proof. unfold max_date. now rewrite fold_left_app. Qed.

Lemma max_date_greatest (s : string) (rows : list Bar) :
  match max_date s rows with
  | None => forall r, In r rows -> symbol r <> s
  | Some d =>
      (exists r, In r rows /\ symbol r = s /\ date r = d)
      /\ forall r, In r rows -> symbol r = s -> date r <= d
  end.
Proof.
  induction rows as [|x rows IH] using rev_ind; [intros r []|].
  rewrite max_date_snoc.
  destruct (String.eqb (symbol x) s) eqn:E.
  - apply String.eqb_eq in E.
    destruct (max_date s rows) as [d|].
    + destruct IH as [(r0 & Hin & Hs & Hd) Hmax]. split.
      * destruct (Z.max_spec d (date x)) as [[_ ->] | [_ ->]].
        -- exists x. split; [apply in_or_app; right; now left | auto].
        -- exists r0. split; [apply in_or_app; now left | auto].
      * intros r Hr Hsym. apply in_app_or in Hr.
        destruct Hr as [Hr | [<- | []]]; [|lia].
        specialize (Hmax r Hr Hsym). lia.
    + split.
      * exists x. split; [apply in_or_app; right; now left | auto].
      * intros r Hr Hsym. apply in_app_or in Hr.
        destruct Hr as [Hr | [<- | []]]; [|lia].
        now elim (IH r Hr).
  - apply String.eqb_neq in E.
    destruct (max_date s rows) as [d|].
    + destruct IH as [(r0 & Hin & Hs & Hd) Hmax]. split.
      * exists r0. split; [apply in_or_app; now left | auto].
      * intros r Hr Hsym. apply in_app_or in Hr.
        destruct Hr as [Hr | [<- | []]]; [auto | contradiction].
    + intros r Hr. apply in_app_or in Hr.
      destruct Hr as [Hr | [<- | []]]; auto.
Qed.

Lemma max_date_app (s : string) (old added : list Bar) :
  max_date s (old ++ added)
  = later_of (max_date s old) (max_date s added).
Proof.
  induction added as [|x added IH] using rev_ind.
  - rewrite app_nil_r. simpl. now destruct (max_date s old).
  - rewrite app_assoc, !max_date_snoc, IH.
    destruct (String.eqb (symbol x) s); [|reflexivity].
    destruct (max_date s old) as [d1|], (max_date s added) as [d2|];
      simpl; f_equal; lia.
Qed.

(** X1: [get_latest_data_date] never raises.  When it returns a date the
    query went through, some stored row of the symbol has that date and no
    stored row of the symbol has a later one; when it returns [None] the
    query failed or the symbol has no stored row. *)
Theorem get_latest_data_date_greatest (env : Env) (s : string) (w : World) :
  match fst (get_latest_data_date env s w) with
  | Ok (Some d) =>
      execute_raises env = false
      /\ (exists r, In r (stocks w) /\ symbol r = s /\ date r = d)
      /\ forall r, In r (stocks w) -> symbol r = s -> date r <= d
  | Ok None =>
      execute_raises env = true
      \/ forall r, In r (stocks w) -> symbol r <> s
  | Raise _ => False
  end.
Proof.
  destruct (get_latest_data_date_stored env s w) as [-> _].
  unfold stored_latest. pose proof (max_date_greatest s (stocks w)) as H.
  destruct (execute_raises env); [now left|].
  destruct (max_date s (stocks w)); [split; [reflexivity | exact H]|].
  now right.
Qed.

(** X2: a row that went into [stocks] through [insert_dataframe] is seen
    by [get_latest_data_date]: with a working database, the latest date
    returned for the symbol of an inserted row is at least the date of that
    row and at least the latest date stored before. *)
Theorem insert_then_latest (env : Env) (df : list Bar) (s : string)
    (w : World) (r : Bar) :
  to_sql_raises env T_stocks = false ->
  execute_raises env = false ->
  In r df -> symbol r = s ->
  let w' := snd (insert_dataframe env T_stocks df w) in
  exists d,
    fst (get_latest_data_date env s w') = Ok (Some d)
    /\ date r <= d
    /\ forall d0, max_date s (stocks w) = Some d0 -> d0 <= d.
Proof.
  intros Hsql Hexec Hin Hsym. cbv zeta.
  destruct (get_latest_data_date_stored env s
              (snd (insert_dataframe env T_stocks df w))) as [-> _].
  unfold stored_latest. rewrite Hexec.
  assert (Hst : stocks (snd (insert_dataframe env T_stocks df w))
                = stocks w ++ df).
  { unfold insert_dataframe, to_sql_append, try_except, bind, logger.
    rewrite Hsql. reflexivity. }
  rewrite Hst, max_date_app.
  pose proof (max_date_greatest s df) as Hdf.
  destruct (max_date s df) as [d2|]; [|now elim (Hdf r Hin)].
  destruct Hdf as [_ Hmax]. specialize (Hmax r Hin Hsym).
  destruct (max_date s (stocks w)) as [d1|]; simpl.
  - exists (Z.max d1 d2). repeat split; [lia|]. intros d0 [= <-]. lia.
  - exists d2. repeat split; [assumption | discriminate].
Qed.

Lemma insert_then_latest_witness :
  exists d,
    fst (get_latest_data_date (env_answering 10 (Ok [])) "AAPL"
           (snd (insert_dataframe (env_answering 10 (Ok [])) T_stocks
                   [sample_bar 8; sample_bar 9]
                   (world_with [sample_bar 7]))))
    = Ok (Some d)
    /\ 9 <= d
    /\ forall d0, max_date "AAPL" [sample_bar 7] = Some d0 -> d0 <= d.
Proof.
  apply (insert_then_latest (env_answering 10 (Ok [])) [sample_bar 8; sample_bar 9]
           "AAPL" (world_with [sample_bar 7]) (sample_bar 9));
    try reflexivity.
  right. now left.
Defined.

(** ** One sync *)

Lemma drop_duplicates_from_keeps_keys (df : list Bar) :
  forall seen k, In k (map key df) -> ~ In k seen ->
                 In k (map key (drop_duplicates_from seen df)).
Proof.
  induction df as [|x rest IH]; simpl; intros seen k Hk Hseen; [assumption|].
  destruct (key_mem (key x) seen) eqn:E.
  - apply key_mem_In in E. destruct Hk as [<- | Hk]; [contradiction|].
    now apply IH.
  - simpl. destruct (key_eqb (key x) k) eqn:Ek.
    + apply key_eqb_eq in Ek. now left.
    + right. destruct Hk as [Hk | Hk].
      * apply key_eqb_eq in Hk. congruence.
      * apply IH; [assumption|]. intros [Hx | Hs]; [|contradiction].
        apply key_eqb_eq in Hx. congruence.
Qed.

(** What one sync adds to [stocks]: nothing, or the fetched rows under the
    symbol of the sync, one per date. *)
Lemma update_stock_data_added (env : Env) (s : string) (force : bool)
    (w : World) :
  exists b added,
    fst (update_stock_data env s force w) = Ok b
    /\ stocks (snd (update_stock_data env s force w)) = stocks w ++ added
    /\ (forall r, In r added -> symbol r = s)
    /\ NoDup (map key added)
    /\ (b = false -> added = [])
    /\ (to_sql_raises env T_stocks = true -> added = []).
Proof.
  destruct (update_stock_data_run env s force w)
    as (b & w' & -> & _ & _ & Hw). cbn [fst snd]. exists b.
  assert (Hnil : stocks w' = stocks w ->
                 exists added, @Ok bool b = Ok b
                   /\ stocks w' = stocks w ++ added
                   /\ (forall r, In r added -> symbol r = s)
                   /\ NoDup (map key added)
                   /\ (b = false -> added = [])
                   /\ (to_sql_raises env T_stocks = true -> added = [])).
  { intros ->. exists []. rewrite app_nil_r.
    repeat split; auto; [intros r [] | constructor]. }
  destruct (spec_window env s force w) as [k|];
    [|now apply Hnil; destruct Hw as (_ & -> & _)].
  destruct Hw as [_ Hw].
  destruct (provider env s (today env - k) (today env + 1))
    as [[|x data]|e]; try (now apply Hnil; destruct Hw as [_ ->]).
  destruct (to_sql_raises env T_stocks);
    [now apply Hnil; destruct Hw as [_ ->]|].
  destruct Hw as [-> ->].
  exists (drop_duplicates (map (set_symbol s) (x :: data))).
  repeat split; try discriminate.
  - intros r Hr. apply drop_duplicates_from_In in Hr. destruct Hr as [Hr _].
    apply in_map_iff in Hr. now destruct Hr as (r0 & <- & _).
  - apply drop_duplicates_from_NoDup.
Qed.

(** X3: [update_stock_data] never raises, whatever the provider and the
    database do, and it only ever appends to [stocks]: the rows that were
    stored stay as they were, in their order; the rows added all carry the
    symbol of the sync and no two of them have one date; a sync that returns
    [False] has added nothing; and [stocks_clean] is not touched. *)
Theorem update_stock_data_appends (env : Env) (s : string) (force : bool)
    (w : World) :
  let out := update_stock_data env s force w in
  exists b added,
    fst out = Ok b
    /\ stocks (snd out) = stocks w ++ added
    /\ stocks_clean (snd out) = stocks_clean w
    /\ (forall r, In r added -> symbol r = s)
    /\ NoDup (map date added)
    /\ (b = false -> added = []).
Proof.
  cbv zeta.
  destruct (update_stock_data_added env s force w)
    as (b & added & Hb & Hst & Hsym & Hnd & Hfalse & _).
  exists b, added. repeat split; auto.
  - destruct (update_stock_data_run env s force w)
      as (b' & w' & -> & Hsc & _). exact Hsc.
  - now apply (one_symbol_dates_distinct s).
Qed.

(** X4: when the database refuses the insert, a sync that had rows to
    write returns [False] without raising and leaves [stocks] as it was; a
    sync still returns [True] exactly when no fetch was due. *)
Theorem update_stock_data_store_failure (env : Env) (s : string)
    (force : bool) (w : World) :
  to_sql_raises env T_stocks = true ->
  let out := update_stock_data env s force w in
  exists b,
    fst out = Ok b
    /\ stocks (snd out) = stocks w
    /\ (b = true <-> spec_window env s force w = None).
Proof.
  intros Hdb. cbv zeta.
  destruct (update_stock_data_run env s force w)
    as (b & w' & -> & _ & _ & Hw). cbn [fst snd]. exists b.
  split; [reflexivity|]. rewrite Hdb in Hw.
  destruct (spec_window env s force w) as [k|].
  - destruct Hw as [_ Hw].
    destruct (provider env s (today env - k) (today env + 1))
      as [[|x data]|e]; destruct Hw as [-> ->];
      (split; [reflexivity | split; discriminate]).
  - destruct Hw as (-> & -> & _). split; [reflexivity | split; reflexivity].
Qed.

Lemma update_stock_data_store_failure_witness :
  exists b,
    fst (update_stock_data (env_store_down 10 (Ok [sample_bar 9])) "AAPL"
           false (world_with [sample_bar 7]))
    = Ok b
    /\ stocks (snd (update_stock_data (env_store_down 10 (Ok [sample_bar 9]))
                      "AAPL" false (world_with [sample_bar 7])))
       = [sample_bar 7]
    /\ (b = true <->
        spec_window (env_store_down 10 (Ok [sample_bar 9])) "AAPL" false
          (world_with [sample_bar 7]) = None).
Proof.
  apply (update_stock_data_store_failure
           (env_store_down 10 (Ok [sample_bar 9])) "AAPL" false
           (world_with [sample_bar 7])).
  reflexivity.
Defined.

(** X5: the latest stored date of a symbol never goes back through a
    sync, of that symbol or of another. *)
Theorem update_stock_data_latest_monotone (env : Env) (s s' : string)
    (force : bool) (w : World) (d : Z) :
  max_date s' (stocks w) = Some d ->
  exists d',
    max_date s' (stocks (snd (update_stock_data env s force w))) = Some d'
    /\ d <= d'.
Proof.
  intros Hd.
  destruct (update_stock_data_added env s force w)
    as (b & added & _ & -> & _).
  rewrite max_date_app, Hd.
  destruct (max_date s' added) as [d2|]; simpl.
  - exists (Z.max d d2). split; [reflexivity | lia].
  - exists d. split; [reflexivity | lia].
Qed.

Lemma update_stock_data_latest_monotone_witness :
  exists d',
    max_date "AAPL"
      (stocks (snd (update_stock_data (env_answering 10 (Ok [sample_bar 9]))
                      "AAPL" false (world_with [sample_bar 7]))))
    = Some d'
    /\ 7 <= d'.
Proof.
  apply (update_stock_data_latest_monotone
           (env_answering 10 (Ok [sample_bar 9])) "AAPL" "AAPL" false
           (world_with [sample_bar 7]) 7).
  reflexivity.
Defined.

(** The latest date among rows of one symbol whose dates stop at a day
    that one of them has is that day. *)
Lemma max_date_reaches (s : string) (rows : list Bar) (day : Z) :
  (forall r, In r rows -> symbol r = s) ->
  (forall r, In r rows -> date r <= day) ->
  In (s, day) (map key rows) ->
  max_date s rows = Some day.
Proof.
  intros Hsym Hle Hday. pose proof (max_date_greatest s rows) as H.
  apply in_map_iff in Hday. destruct Hday as (r0 & Hk & Hr0).
  injection Hk as Hs0 Hd0.
  destruct (max_date s rows) as [d|]; [|now elim (H r0 Hr0)].
  destruct H as [(r1 & Hr1 & _ & Hd1) Hmax].
  specialize (Hmax r0 Hr0 Hs0). specialize (Hle r1 Hr1). f_equal. lia.
Qed.

(** X6: once a sync has stored the bar of today, an unforced sync of the
    same symbol on the same day is a no-op.  With a working database, a
    provider whose answer holds a bar dated today and none dated later, and
    no stored row of the symbol dated after today: the sync returns [True],
    and a second, unforced sync returns [True] without calling the provider
    and without writing. *)
Theorem resync_same_day_is_noop (env : Env) (s : string) (force : bool)
    (w : World) (k : Z) (data : list Bar) :
  execute_raises env = false ->
  to_sql_raises env T_stocks = false ->
  spec_window env s force w = Some k ->
  provider env s (today env - k) (today env + 1) = Ok data ->
  (exists r, In r data /\ date r = today env) ->
  (forall r, In r data -> date r <= today env) ->
  (forall r, In r (stocks w) -> symbol r = s -> date r <= today env) ->
  let run1 := update_stock_data env s force w in
  let run2 := update_stock_data env s false (snd run1) in
  fst run1 = Ok true
  /\ fst run2 = Ok true
  /\ stocks (snd run2) = stocks (snd run1)
  /\ requests (snd run2) = requests (snd run1).
Proof.
  intros Hexec Hsql Hk Hp (r0 & Hr0 & Hd0) Hdata Hold. cbv zeta.
  destruct (update_stock_data_run env s force w)
    as (b & w1 & -> & _ & _ & Hw). cbn [fst snd].
  rewrite Hk, Hp, Hsql in Hw. destruct Hw as [_ Hw].
  destruct data as [|x data]; [destruct Hr0|].
  destruct Hw as [-> Hst]. split; [reflexivity|].
  set (added := drop_duplicates (map (set_symbol s) (x :: data))) in *.
  assert (Hadded : max_date s added = Some (today env)).
  { apply max_date_reaches.
    - intros r Hr. apply drop_duplicates_from_In in Hr. destruct Hr as [Hr _].
      apply in_map_iff in Hr. now destruct Hr as (r1 & <- & _).
    - intros r Hr. apply drop_duplicates_from_In in Hr. destruct Hr as [Hr _].
      apply in_map_iff in Hr. destruct Hr as (r1 & <- & Hr1). simpl. auto.
    - apply drop_duplicates_from_keeps_keys; [|intros []].
      apply in_map_iff. exists (set_symbol s r0). split.
      + unfold key. simpl. now rewrite Hd0.
      + now apply in_map. }
  assert (Hlatest : stored_latest env s w1 = Some (today env)).
  { unfold stored_latest. rewrite Hexec, Hst, max_date_app, Hadded.
    pose proof (max_date_greatest s (stocks w)) as Hg.
    destruct (max_date s (stocks w)) as [d|]; [|reflexivity].
    destruct Hg as [(r1 & Hr1 & Hs1 & <-) _]. simpl. f_equal.
    specialize (Hold r1 Hr1 Hs1). lia. }
  destruct (update_stock_data_run env s false w1)
    as (b2 & w2 & -> & _ & _ & Hw2). cbn [fst snd].
  unfold spec_window in Hw2. rewrite Hlatest, Z.sub_diag in Hw2.
  simpl in Hw2. destruct Hw2 as (-> & -> & ->). auto.
Qed.

Lemma resync_same_day_is_noop_witness :
  let env := env_answering 10 (Ok [sample_bar 9; sample_bar 10]) in
  let run1 := update_stock_data env "AAPL" false (world_with [sample_bar 7]) in
  let run2 := update_stock_data env "AAPL" false (snd run1) in
  fst run1 = Ok true
  /\ fst run2 = Ok true
  /\ stocks (snd run2) = stocks (snd run1)
  /\ requests (snd run2) = requests (snd run1).
Proof.
  apply (resync_same_day_is_noop
           (env_answering 10 (Ok [sample_bar 9; sample_bar 10])) "AAPL" false
           (world_with [sample_bar 7]) 5 [sample_bar 9; sample_bar 10]);
    try reflexivity.
  - exists (sample_bar 10). split; [right; now left | reflexivity].
  - intros r [<- | [<- | []]]; simpl; lia.
  - intros r [<- | []] _. simpl. lia.
Defined.

(** ** The batch, its provider calls and its writes *)





(** ** More on the cleaning stage *)

Lemma drop_duplicates_from_length (df : list Bar) :
  forall seen,
    (List.length (drop_duplicates_from seen df) <= List.length df)%nat.
Proof.
  induction df as [|x rest IH]; simpl; intros seen; [lia|].
  destruct (key_mem (key x) seen); simpl.
  - specialize (IH seen). lia.
  - specialize (IH (key x :: seen)). lia.
Qed.

Lemma drop_duplicates_from_full (df : list Bar) :
  forall seen,
    List.length (drop_duplicates_from seen df) = List.length df ->
    NoDup (map key df) /\ forall r, In r df -> ~ In (key r) seen.
Proof.
  induction df as [|x rest IH]; simpl; intros seen Hlen.
  - split; [constructor | intros r []].
  - destruct (key_mem (key x) seen) eqn:E.
    + pose proof (drop_duplicates_from_length rest seen). lia.
    + simpl in Hlen. injection Hlen as Hlen.
      destruct (IH _ Hlen) as [Hnd Hseen]. apply key_mem_false in E. split.
      * constructor; [|assumption]. rewrite in_map_iff.
        intros (r & Hk & Hr). apply (Hseen r Hr). left. now symmetry.
      * intros r [<- | Hr]; [assumption|].
        intros Hin. apply (Hseen r Hr). now right.
Qed.

Lemma ffill_prices_length (df : list Bar) :
  forall po ph pl pc,
    List.length (ffill_prices po ph pl pc df) = List.length df.
Proof.
  induction df as [|x df IH]; simpl; intros; [reflexivity|].
  now rewrite IH.
Qed.

Lemma handle_missing_length (df : list Bar) :
  List.length (handle_missing df) = List.length df.
Proof.
  unfold handle_missing, fillna_volume. destruct (has_missing df); [|auto].
  now rewrite length_map, ffill_prices_length.
Qed.

Lemma before_filters_length (df : list Bar) :
  List.length (before_filters df) = List.length (drop_duplicates df).
Proof.
  unfold before_filters. rewrite handle_missing_length.
  apply Permutation_length, sort_values_date_perm.
Qed.

Lemma clean_stock_data_length (df : list Bar) :
  (List.length (clean_stock_data df)
   <= List.length (drop_duplicates df))%nat.
Proof.
  rewrite clean_stock_data_filters, <- before_filters_length.
  eapply Nat.le_trans; apply filter_length_le.
Qed.

(** X8: cleaning never adds a row: the output is no longer than the
    input, strictly shorter when two rows of the input have one (symbol,
    date), and every (symbol, date) of the output is one of the input. *)
Theorem clean_stock_data_shrinks (df : list Bar) :
  (List.length (clean_stock_data df) <= List.length df)%nat
  /\ (~ NoDup (map key df) ->
      (List.length (clean_stock_data df) < List.length df)%nat)
  /\ (forall r, In r (clean_stock_data df) -> In (key r) (map key df)).
Proof.
  pose proof (clean_stock_data_length df) as Hlen.
  pose proof (drop_duplicates_from_length df []) as Hdd.
  fold (drop_duplicates df) in Hdd.
  split; [lia|]. split.
  - intros Hdup.
    destruct (Nat.eq_dec (List.length (drop_duplicates df)) (List.length df))
      as [E | E]; [|lia].
    apply drop_duplicates_from_full in E. now elim Hdup.
  - intros r Hr. apply clean_stock_data_In in Hr. destruct Hr as [Hr _].
    apply (in_map key) in Hr. unfold before_filters in Hr.
    destruct (handle_missing_keys (sort_values_date (drop_duplicates df)))
      as [Hk _].
    rewrite Hk in Hr.
    assert (Hp : Permutation (map key (sort_values_date (drop_duplicates df)))
                             (map key (drop_duplicates df)))
      by apply Permutation_map, sort_values_date_perm.
    apply (Permutation_in _ Hp) in Hr.
    apply in_map_iff in Hr. destruct Hr as (r0 & <- & Hr0).
    apply drop_duplicates_from_In in Hr0. apply in_map. tauto.
Qed.

Lemma clean_stock_data_shrinks_witness :
  (List.length (clean_stock_data [sample_bar 2; sample_bar 1; sample_bar 2])
   < 3)%nat.
Proof.
  apply (proj1 (proj2 (clean_stock_data_shrinks
                         [sample_bar 2; sample_bar 1; sample_bar 2]))).
  intros H. inversion H as [|? ? Hin _]; subst. apply Hin. simpl. auto.
Defined.

(** X9: the frames cleaning leaves as they are, whatever routine sorts, as
    long as it sorts the frame it is given.  Among the frames in which the
    rows of one date are rows of one symbol these are the clean ones: such
    a frame comes back unchanged exactly when every row has valid prices,
    no volume is missing, the rows are in date order and no two of them
    have one (symbol, date). *)
Theorem clean_stock_data_fixed_points (sort_values : list Bar -> list Bar)
    (df : list Bar) :
  sorts sort_values (drop_duplicates df) ->
  one_symbol_per_date df ->
  (clean_stock_data_by sort_values df = df <->
   Forall valid_bar df /\ sorted_by_date df /\ no_duplicate_keys df
   /\ (forall r, In r df -> isnan (volume r) = false)).
Proof.
  intros Hs1 H1. split.
  - intros E.
    destruct (clean_stock_data_by_keys sort_values df Hs1) as (Hs & Hn & _).
    rewrite E in Hs, Hn. split; [|split; [|split]]; try assumption.
    + apply Forall_forall. intros r Hr. rewrite <- E in Hr.
      now apply clean_stock_data_by_valid in Hr.
    + intros r Hr. rewrite <- E in Hr.
      apply clean_stock_data_by_valid in Hr. destruct Hr as [_ Hr].
      unfold row_has_null in Hr. rewrite !orb_false_iff in Hr. tauto.
  - intros (Hv & Hs & Hn & Hvol).
    assert (Ed : drop_duplicates df = df)
      by (apply drop_duplicates_from_id; [assumption | intros ? ? []]).
    rewrite Ed in Hs1. destruct Hs1 as [Hp Hsorted].
    rewrite clean_stock_data_by_sort_only by assumption.
    apply date_order_unique; try assumption.
    eapply Permutation_NoDup.
    + apply Permutation_map. symmetry. exact Hp.
    + now apply one_symbol_per_date_dates_distinct.
Qed.

(** Twenty-five clean days of one symbol come back as they are from a
    cleaning that sorts with the routine of numpy. *)
Lemma clean_stock_data_fixed_points_witness :
  clean_stock_data_by sort_values_quicksort rising_bars_25 = rising_bars_25.
Proof.
  assert (Hall : forall r, In r rising_bars_25 ->
                           symbol r = "AAPL"%string
                           /\ valid_bar r /\ isnan (volume r) = false).
  { apply Forall_forall. vm_compute. repeat constructor. }
  apply (proj2 (clean_stock_data_fixed_points sort_values_quicksort
                  rising_bars_25
                  ltac:(apply sorts_as_stable; vm_compute; reflexivity)
                  ltac:(intros r1 r2 H1 H2 _;
                        now rewrite (proj1 (Hall r1 H1)),
                                    (proj1 (Hall r2 H2))))).
  split; [|split; [|split]].
  - apply Forall_forall. intros r Hr. exact (proj1 (proj2 (Hall r Hr))).
  - replace rising_bars_25 with (sort_values_date rising_bars_25)
      by (vm_compute; reflexivity).
    apply sort_values_date_sorted.
  - replace rising_bars_25 with (drop_duplicates rising_bars_25)
      by (vm_compute; reflexivity).
    apply drop_duplicates_from_NoDup.
  - intros r Hr. exact (proj2 (proj2 (Hall r Hr))).
Defined.

(** [drop_duplicates] keeps the first row of every (symbol, date). *)
Lemma drop_duplicates_first (df : list Bar) (r : Bar) :
  In r (drop_duplicates df) <->
  exists before after,
    df = before ++ r :: after /\ ~ In (key r) (map key before).
Proof.
  unfold drop_duplicates.
  assert (G : forall l seen,
    In r (drop_duplicates_from seen l) <->
    exists before after,
      l = before ++ r :: after
      /\ ~ In (key r) (map key before) /\ ~ In (key r) seen).
  { induction l as [|x rest IH]; intros seen; simpl.
    - split; [intros [] | intros (b & a & E & _)]. now destruct b.
    - destruct (key_mem (key x) seen) eqn:E.
      + apply key_mem_In in E. rewrite IH. split.
        * intros (b & a & -> & Hb & Hs). exists (x :: b), a. simpl.
          repeat split; auto. intros [Hx | Hx]; [|contradiction].
          rewrite <- Hx in Hs. contradiction.
        * intros (b & a & Heq & Hb & Hs). destruct b as [|y b].
          -- simpl in Heq. injection Heq as -> _. contradiction.
          -- simpl in Heq. injection Heq as -> ->. exists b, a.
             repeat split; auto. intros Hin. apply Hb. now right.
      + apply key_mem_false in E. simpl. rewrite IH. split.
        * intros [<- | (b & a & -> & Hb & Hs)].
          -- exists [], rest. repeat split; auto.
          -- exists (x :: b), a. simpl. repeat split.
             ++ intros [Hx | Hx]; [|contradiction]. apply Hs. now left.
             ++ intros Hin. apply Hs. now right.
        * intros (b & a & Heq & Hb & Hs). destruct b as [|y b].
          -- simpl in Heq. injection Heq as -> _. now left.
          -- simpl in Heq. injection Heq as -> ->. right. exists b, a.
             repeat split.
             ++ intros Hin. apply Hb. now right.
             ++ intros [Hx | Hx]; [|contradiction]. apply Hb. now left. }
  rewrite G. split.
  + intros (b & a & E & Hb & _). eauto.
  + intros (b & a & E & Hb). exists b, a. repeat split; auto.
Qed.

(** X10: of the rows of one (symbol, date) cleaning keeps the first.  On a
    frame with no missing cell, a row is in the cleaned frame exactly when it
    passes the price checks and stands in the input at a place with no row of
    its (symbol, date) before it. *)
Theorem clean_stock_data_keeps_first (df : list Bar) (r : Bar) :
  has_missing df = false ->
  (In r (clean_stock_data df) <->
   rejected r = false
   /\ exists before after,
        df = before ++ r :: after /\ ~ In (key r) (map key before)).
Proof.
  intros Hmiss. rewrite clean_stock_data_In, <- drop_duplicates_first.
  assert (E : before_filters df = sort_values_date (drop_duplicates df)).
  { unfold before_filters. apply handle_missing_id. intros x Hx.
    apply (Permutation_in _ (sort_values_date_perm _)) in Hx.
    apply drop_duplicates_from_In in Hx. destruct Hx as [Hx _].
    unfold has_missing in Hmiss. rewrite existsb_false in Hmiss. auto. }
  rewrite E. split; intros [H1 H2]; split; auto.
  - now apply (Permutation_in _ (sort_values_date_perm _)).
  - apply (Permutation_in _ (Permutation_sym (sort_values_date_perm _))).
    assumption.
Qed.

(** Of two bars for day 2 with different closes the first is kept. *)
Lemma clean_stock_data_keeps_first_witness :
  In (sample_bar 2)
     (clean_stock_data
        [sample_bar 2; sample_bar 1;
         mkBar "AAPL" 2 (fin_Z 100) (fin_Z 101) (fin_Z 99) (fin_Z 99)
           (fin_Z 5)]).
Proof.
  apply (proj2 (clean_stock_data_keeps_first
                  [sample_bar 2; sample_bar 1;
                   mkBar "AAPL" 2 (fin_Z 100) (fin_Z 101) (fin_Z 99)
                     (fin_Z 99) (fin_Z 5)]
                  (sample_bar 2) eq_refl)).
  split; [reflexivity|]. exists [], [sample_bar 1;
                   mkBar "AAPL" 2 (fin_Z 100) (fin_Z 101) (fin_Z 99)
                     (fin_Z 99) (fin_Z 5)].
  split; [reflexivity | intros []].
Defined.

(** ** Forward filling *)








(** ** The order of the input rows *)

Lemma dates_distinct_keys_distinct (df : list Bar) :
  NoDup (map date df) -> NoDup (map key df).
Proof.
  intros H. apply (NoDup_map_inv snd). now rewrite map_map.
Qed.

Lemma has_missing_perm (df1 df2 : list Bar) :
  Permutation df1 df2 -> has_missing df1 = false -> has_missing df2 = false.
Proof.
  unfold has_missing. rewrite !existsb_false. intros Hp H r Hr.
  apply H. eapply Permutation_in; [symmetry; exact Hp | exact Hr].
Qed.

(** X12: for a frame with one row per date and no missing cell the order
    of the input rows does not matter: two such frames with the same rows
    are cleaned to the same frame. *)
Theorem clean_stock_data_order_independent (df1 df2 : list Bar) :
  Permutation df1 df2 ->
  NoDup (map date df1) ->
  has_missing df1 = false ->
  clean_stock_data df1 = clean_stock_data df2.
Proof.
  intros Hp Hnd Hm.
  assert (Hnd2 : NoDup (map date df2)).
  { eapply Permutation_NoDup; [apply Permutation_map; exact Hp | exact Hnd]. }
  rewrite !clean_stock_data_filters. do 2 f_equal.
  unfold before_filters, drop_duplicates.
  rewrite !drop_duplicates_from_id
    by (try apply dates_distinct_keys_distinct; auto; intros ? ? []).
  assert (Es : sort_values_date df2 = sort_values_date df1).
  { apply sort_values_date_canonical; [assumption | |].
    - rewrite sort_values_date_perm. now symmetry.
    - apply sort_values_date_sorted. }
  rewrite Es. reflexivity.
Qed.

Lemma clean_stock_data_order_independent_witness :
  clean_stock_data [sample_bar 2; sample_bar 1; sample_bar 3]
  = clean_stock_data [sample_bar 1; sample_bar 2; sample_bar 3].
Proof.
  apply clean_stock_data_order_independent.
  - apply perm_swap.
  - repeat constructor; simpl; intuition discriminate.
  - reflexivity.
Defined.

(** ** The sign of the daily return *)

Lemma cell_map (f : float -> float) (xs : list float) (i : nat) :
  f NaN = NaN -> cell (map f xs) i = f (cell xs i).
Proof.
  intros Hf. unfold cell. rewrite <- Hf at 1. apply map_nth.
Qed.

Lemma cell_shift1 (xs : list float) (i : nat) :
  (S i < List.length xs)%nat -> cell (shift1 xs) (S i) = cell xs i.
Proof.
  intros Hi. unfold cell, shift1. destruct xs as [|x xs]; [simpl in Hi; lia|].
  cbn [nth]. rewrite removelast_firstn_len, nth_firstn.
  cbn [List.length Nat.pred] in *.
  assert (E : (i <? List.length xs)%nat = true) by (apply Nat.ltb_lt; lia).
  now rewrite E.
Qed.

Lemma cell_fin (qs : list Q) (i : nat) (q : Q) :
  nth_error qs i = Some q -> cell (map Fin qs) i = Fin q.
Proof.
  intros H. unfold cell. apply nth_error_nth.
  now rewrite nth_error_map, H.
Qed.

(** Padding finds nothing to fill in a column of numbers. *)
Lemma ffill_col_fin (qs : list Q) :
  forall prev, ffill_col prev (map Fin qs) = map Fin qs.
Proof.
  induction qs as [|q qs IH]; intros prev; simpl; [reflexivity|].
  unfold fill_from at 1. simpl. now rewrite IH.
Qed.

(** X15: the daily return of [engineer_features], on closes that are all
    numbers: missing on the first row, and on every later row whose
    previous close is above 0 a number with the sign of the change of the
    close: above 0 exactly when the close rose, 0 exactly when it stayed,
    below 0 exactly when it fell. *)
Theorem daily_return_sign (df : list Bar) (qs : list Q) :
  map close df = map Fin qs ->
  (df <> [] -> cell (daily_return_col df) 0 = NaN)
  /\ forall i prev cur,
       nth_error qs i = Some prev -> nth_error qs (S i) = Some cur ->
       (0 < prev)%Q ->
       exists v,
         cell (daily_return_col df) (S i) = Fin v
         /\ ((0 < v)%Q <-> (prev < cur)%Q)
         /\ ((v == 0)%Q <-> (cur == prev)%Q)
         /\ ((v < 0)%Q <-> (cur < prev)%Q).
Proof.
  intros Hc. unfold daily_return_col, pct_change. cbv zeta.
  rewrite Hc, ffill_col_fin. split.
  - intros Hne. destruct qs as [|q qs]; [|reflexivity].
    destruct df; [congruence | discriminate].
  - intros i prev cur Hprev Hcur Hpos.
    assert (Hlen : (S i < List.length (map Fin qs))%nat).
    { rewrite length_map. apply nth_error_Some. congruence. }
    rewrite !cell_map by reflexivity.
    rewrite cell_zip_with
      by (try reflexivity; now rewrite shift1_length).
    rewrite cell_shift1 by assumption.
    rewrite (cell_fin qs (S i) cur Hcur), (cell_fin qs i prev Hprev).
    cbn [fdiv].
    assert (E : Qeq_bool prev 0 = false).
    { destruct (Qeq_bool prev 0) eqn:E; [|reflexivity].
      apply Qeq_bool_iff in E. lra. }
    rewrite E. unfold fsub. cbn [fneg fadd fmul].
    eexists. split; [reflexivity|].
    rewrite !Qred_correct.
    set (t := (cur / prev)%Q).
    assert (Hup : (prev < cur -> 1 < t)%Q).
    { intros H. apply Qlt_shift_div_l; [assumption | lra]. }
    assert (Hsame : (cur == prev -> t == 1)%Q).
    { intros H. unfold t. rewrite H. field. lra. }
    assert (Hdown : (cur < prev -> t < 1)%Q).
    { intros H. apply Qlt_shift_div_r; [assumption | lra]. }
    destruct (Q_dec prev cur) as [[H | H] | H].
    + specialize (Hup H). repeat split; intros; lra.
    + specialize (Hdown H). repeat split; intros; lra.
    + assert (H' : (cur == prev)%Q) by lra.
      specialize (Hsame H'). repeat split; intros; lra.
Qed.

(** From a close of 100 to a close of 102 the return is above 0. *)
Lemma daily_return_sign_witness :
  exists v,
    cell (daily_return_col test_return_bars) 1 = Fin v /\ (0 < v)%Q.
Proof.
  destruct (proj2 (daily_return_sign test_return_bars
                     (map inject_Z [100; 102; 98]) eq_refl)
              0%nat 100%Q 102%Q eq_refl eq_refl ltac:(reflexivity))
    as (v & Hv & Hup & _).
  exists v. split; [exact Hv|]. apply Hup. reflexivity.
Defined.

(** ** Saving, with and without a database *)

Lemma drop_duplicates_clean_from_NoDup (df : list CleanRow) :
  forall seen,
    NoDup (map c_key (drop_duplicates_clean_from seen df))
    /\ (forall r, In r (drop_duplicates_clean_from seen df) ->
                  ~ In (c_key r) seen)
    /\ (List.length (drop_duplicates_clean_from seen df)
        <= List.length df)%nat.
Proof.
  induction df as [|x df IH]; simpl; intros seen.
  - split; [constructor | split; [intros r [] | lia]].
  - destruct (key_mem (c_key x) seen) eqn:E.
    + destruct (IH seen) as (Hnd & Hseen & Hlen). repeat split; auto.
    + destruct (IH (c_key x :: seen)) as (Hnd & Hseen & Hlen).
      apply key_mem_false in E. simpl. split; [|split; [|lia]].
      * constructor; [|assumption]. rewrite in_map_iff.
        intros (r & Hk & Hr). apply (Hseen r Hr). left. now symmetry.
      * intros r [<- | Hr]; [assumption|].
        intros Hin. apply (Hseen r Hr). now right.
Qed.

(** X17: [save_cleaned_data] never touches [stocks].  On an empty frame
    it writes nothing and does not raise.  On any other frame it raises
    exactly when the database refuses the insert, and then [stocks_clean]
    is as it was; else it appends rows with pairwise distinct (symbol,
    date), no more than the frame has, each the stored columns of a row of
    the frame without missing cell. *)
Theorem save_cleaned_data_outcome (env : Env) (df : list FeatRow)
    (s : string) (w : World) :
  let out := save_cleaned_data env df s w in
  stocks (snd out) = stocks w
  /\ (df = [] -> fst out = Ok tt /\ stocks_clean (snd out) = stocks_clean w)
  /\ (df <> [] ->
      if to_sql_raises env T_stocks_clean
      then fst out = Raise DatabaseError
           /\ stocks_clean (snd out) = stocks_clean w
      else fst out = Ok tt
           /\ exists added,
                stocks_clean (snd out) = stocks_clean w ++ added
                /\ NoDup (map c_key added)
                /\ (List.length added <= List.length df)%nat
                /\ forall row, In row added ->
                     exists f, In f df /\ row_complete f = true
                               /\ row = to_save f).
Proof.
  cbv zeta. destruct w as [st sc rq lg].
  unfold save_cleaned_data, insert_dataframe, to_sql_append, try_except,
    bind, ret, raise, logger.
  destruct df as [|f0 df]; cbn [empty negb].
  - repeat split; auto. intros H. now elim H.
  - set (frame := f0 :: df).
    destruct (to_sql_raises env T_stocks_clean);
      cbn [stocks stocks_clean requests logs fst snd].
    + split; [reflexivity|]. split; [discriminate|]. intros _. auto.
    + split; [reflexivity|]. split; [discriminate|]. intros _.
      split; [reflexivity|].
      exists (drop_duplicates_clean (map to_save (dropna frame))).
      unfold drop_duplicates_clean.
      destruct (drop_duplicates_clean_from_NoDup
                  (map to_save (dropna frame)) []) as (Hnd & _ & Hlen).
      split; [reflexivity|]. split; [exact Hnd|]. split.
      * eapply Nat.le_trans; [exact Hlen|]. rewrite length_map.
        apply filter_length_le.
      * intros row Hrow. apply drop_duplicates_clean_from_In in Hrow.
        apply in_map_iff in Hrow. destruct Hrow as (f & <- & Hf).
        apply filter_In in Hf. exists f. tauto.
Qed.

(** With a database that refuses the writes the frame of twenty-five
    rising days is not saved and the error reaches the caller. *)
Lemma save_cleaned_data_outcome_witness :
  let out := save_cleaned_data (env_clean_store_down 30)
               (engineer_features (fun q => q) rising_bars_25) "AAPL"
               (world_with []) in
  fst out = Raise DatabaseError /\ stocks_clean (snd out) = [].
Proof.
  cbv zeta.
  apply (proj2 (proj2 (save_cleaned_data_outcome (env_clean_store_down 30)
                  (engineer_features (fun q => q) rising_bars_25) "AAPL"
                  (world_with [])))).
  vm_compute. discriminate.
Defined.

(** ** The label, row by row *)

Lemma create_target_variable_rows {Row : Type} (close_of : Row -> float)
    (df : list Row) (days_ahead : Z) :
  create_target_variable close_of df days_ahead
  = map (fun p =>
           let c := close_of (fst p) in
           let pct := fmul (fdiv (fsub (snd p) c) c) (Fin 100) in
           mkLabeled (fst p) (snd p) pct (astype_int (fgt pct (Fin 2))))
        (combine df (shift (- days_ahead) (map close_of df))).
Proof. unfold create_target_variable. now apply filter_all. Qed.

Lemma cell_shift_back (xs : list float) (h i : nat) :
  (i < List.length xs)%nat ->
  nth i (shift (- Z.of_nat h) xs) NaN = nth (i + h) xs NaN.
Proof.
  intros Hi. unfold shift. rewrite nth_map_seq.
  apply Nat.ltb_lt in Hi. rewrite Hi.
  assert (E : (Z.of_nat i - (- Z.of_nat h) <? 0) = false)
    by (apply Z.ltb_ge; lia).
  rewrite E. f_equal. lia.
Qed.

Lemma combine_left_rows {Row : Type} (df : list Row) :
  forall col : list float,
    List.length df = List.length col ->
    map (fun p => fst p) (combine df col) = df.
Proof.
  induction df as [|x df IH]; intros [|c col] Hlen;
    simpl in *; try discriminate; [reflexivity|].
  f_equal. apply IH. now injection Hlen.
Qed.

(** X18: the frame [create_target_variable] returns is the input frame
    row for row, and for a horizon of [h] days the future price of row [i]
    is the close of row [i + h] of the input, missing when the input has no
    such row. *)
Theorem create_target_variable_alignment {Row : Type}
    (close_of : Row -> float) (df : list Row) (h i : nat) (d : Row) :
  (i < List.length df)%nat ->
  let out := create_target_variable close_of df (Z.of_nat h) in
  let r := nth i out (mkLabeled d NaN NaN 0) in
  map features out = df
  /\ future_price r
     = (if (i + h <? List.length df)%nat
        then close_of (nth (i + h) df d) else NaN).
Proof.
  intros Hi. cbv zeta. rewrite create_target_variable_rows.
  set (future := shift (- Z.of_nat h) (map close_of df)).
  assert (Hlen : List.length df = List.length future)
    by (unfold future; now rewrite shift_length, length_map).
  split.
  - rewrite map_map. cbn [features].
    now apply combine_left_rows.
  - set (g := fun p : Row * float =>
                mkLabeled (fst p) (snd p)
                  (fmul (fdiv (fsub (snd p) (close_of (fst p)))
                           (close_of (fst p))) (Fin 100))
                  (astype_int
                     (fgt (fmul (fdiv (fsub (snd p) (close_of (fst p)))
                                   (close_of (fst p))) (Fin 100)) (Fin 2)))).
    rewrite (nth_indep _ _ (g (d, NaN)))
      by (rewrite length_map, length_combine; lia).
    rewrite (map_nth g), combine_nth by assumption.
    cbn [g future_price fst snd]. unfold future.
    rewrite cell_shift_back by now rewrite length_map.
    destruct (i + h <? List.length df)%nat eqn:E.
    + apply Nat.ltb_lt in E.
      rewrite (nth_indep _ NaN (close_of d)) by now rewrite length_map.
      apply map_nth.
    + apply Nat.ltb_ge in E. apply nth_overflow. now rewrite length_map.
Qed.

Lemma create_target_variable_alignment_witness :
  future_price
    (nth 1 (create_target_variable (fun c => c)
              (map fin_Z [100; 102; 105; 98; 110]) 2)
         (mkLabeled NaN NaN NaN 0))
  = fin_Z 98.
Proof.
  apply (proj2 (create_target_variable_alignment (fun c => c)
                  (map fin_Z [100; 102; 105; 98; 110]) 2 1 NaN
                  ltac:(simpl; lia))).
Defined.

(** X19: what the threshold of the label means in prices.  On a row
    whose close is a number above 0 and whose future price is a number, the
    target is 1 exactly when the future price is more than 1.02 times the
    close, and 0 otherwise. *)
Theorem target_is_two_percent_rise {Row : Type} (close_of : Row -> float)
    (df : list Row) (days_ahead : Z) (r : Labeled Row) (c f : Q) :
  In r (create_target_variable close_of df days_ahead) ->
  close_of (features r) = Fin c ->
  future_price r = Fin f ->
  (0 < c)%Q ->
  (target r = 1 <-> ((102 # 100) * c < f)%Q)
  /\ (target r = 0 <-> (f <= (102 # 100) * c)%Q).
Proof.
  intros Hin Hc Hf Hpos. rewrite create_target_variable_rows in Hin.
  apply in_map_iff in Hin. destruct Hin as ([row fut] & <- & _).
  cbn [features future_price target fst snd] in *. subst fut.
  rewrite Hc. unfold fsub. cbn [fneg fadd fdiv].
  assert (Ec : Qeq_bool c 0 = false).
  { destruct (Qeq_bool c 0) eqn:E; [|reflexivity].
    apply Qeq_bool_iff in E. lra. }
  rewrite Ec. cbn [fmul]. unfold fgt. cbn [flt].
  set (pct := Qred (Qred (Qred (f + Qred (- c)) / c) * 100)).
  assert (Hpct : (pct == (f - c) / c * 100)%Q).
  { unfold pct. rewrite !Qred_correct. reflexivity. }
  assert (Hiff : (2 < pct)%Q <-> ((102 # 100) * c < f)%Q).
  { rewrite Hpct. split; intros H.
    - apply Qnot_le_lt. intros Hle.
      assert (Ht : ((f - c) / c <= 2 # 100)%Q)
        by (apply Qle_shift_div_r; [assumption | lra]).
      lra.
    - assert (Ht : (2 # 100 < (f - c) / c)%Q)
        by (apply Qlt_shift_div_l; [assumption | lra]).
      lra. }
  destruct (Qlt_bool 2 pct) eqn:E; unfold astype_int.
  - apply Qlt_bool_iff in E. apply Hiff in E. split; split; intros H;
      try reflexivity; try discriminate; try assumption. lra.
  - apply Qlt_bool_false in E. split; split; intros H;
      try reflexivity; try discriminate.
    + apply Hiff in H. lra.
    + apply Qnot_lt_le. intros Hlt. apply Hiff in Hlt. lra.
Qed.

(** From a close of 100 to a close of 105 two days later: target 1. *)
Lemma target_is_two_percent_rise_witness :
  target (mkLabeled (fin_Z 100) (fin_Z 105) (Fin 5) 1) = 1
  <-> ((102 # 100) * 100 < 105)%Q.
Proof.
  apply (proj1 (target_is_two_percent_rise (fun c => c)
                  (map fin_Z [100; 102; 105; 98; 110]) 2
                  (mkLabeled (fin_Z 100) (fin_Z 105) (Fin 5) 1) 100 105
                  ltac:(vm_compute; left; reflexivity) eq_refl eq_refl
                  ltac:(reflexivity))).
Defined.

(** ** More on the order selector *)

Lemma flt_irrefl (a : float) : flt a a = false.
Proof.
  destruct a; simpl; auto. apply Qlt_bool_false. apply Qle_refl.
Qed.

Lemma fle_false_not_flt (a b : float) : fle a b = false -> flt a b = false.
Proof.
  intros H. destruct (flt a b) eqn:E; [|reflexivity].
  apply flt_fle in E. congruence.
Qed.

(** X20: searching is never worse than not searching.  When the default
    order is one of the candidates and its fit gives an AIC below infinity,
    [find_optimal_arima_order] returns an order that fits, and the AIC of
    the default order is not below the AIC of the order returned. *)
Theorem find_optimal_arima_order_beats_default
    (fit_aic : list float -> order -> option float) (ts : list float)
    (max_p max_d max_q : Z) (aic_default : float) :
  In ARIMA_ORDER (grid max_p max_d max_q) ->
  fit_aic ts ARIMA_ORDER = Some aic_default ->
  flt aic_default PInf = true ->
  exists aic,
    fit_aic ts (find_optimal_arima_order fit_aic ts max_p max_d max_q)
    = Some aic
    /\ flt aic_default aic = false.
Proof.
  intros Hin Hfit Hfin.
  pose proof (grid_search_inv fit_aic ts max_p max_d max_q) as Inv.
  unfold find_optimal_arima_order, search_inv in *.
  destruct (grid_search fit_aic ts max_p max_d max_q) as [aic [b|]];
    simpl in *.
  - destruct Inv as (before & after & Hg & Hb & Hbefore & Hafter).
    exists aic. split; [assumption|].
    rewrite Hg in Hin. apply in_app_or in Hin.
    destruct Hin as [Hin | [Heq | Hin]].
    + apply fle_false_not_flt. eauto.
    + assert (E : aic = aic_default) by congruence.
      rewrite E. apply flt_irrefl.
    + eauto.
  - destruct Inv as [_ Hnone].
    rewrite (Hnone _ _ Hin Hfit) in Hfin. discriminate.
Qed.

Lemma find_optimal_arima_order_beats_default_witness :
  exists aic,
    fit_two_orders [] (find_optimal_arima_order fit_two_orders [] 3 2 3)
    = Some aic
    /\ flt (Fin 10) aic = false.
Proof.
  apply (find_optimal_arima_order_beats_default fit_two_orders [] 3 2 3
           (Fin 10)); try reflexivity.
  apply in_grid. lia.
Defined.

Lemma order_lt_irrefl (c : order) : ~ order_lt c c.
Proof. destruct c as [[p d] q]. simpl. lia. Qed.

Lemma StronglySorted_NoDup_order (l : list order) :
  StronglySorted order_lt l -> NoDup l.
Proof.
  induction 1 as [|c l Hs IH Hall]; constructor; [|assumption].
  intros Hin. rewrite Forall_forall in Hall.
  apply (order_lt_irrefl c). now apply Hall.
Qed.

Lemma range0_length (n : Z) : List.length (range0 n) = Z.to_nat n.
Proof. unfold range0. now rewrite length_map, length_seq. Qed.

Lemma flat_map_constant_length {A B : Type} (g : A -> list B) (n : nat)
    (l : list A) :
  (forall x, List.length (g x) = n) ->
  List.length (flat_map g l) = (List.length l * n)%nat.
Proof.
  intros Hg. induction l as [|x l IH]; simpl; [reflexivity|].
  now rewrite length_app, Hg, IH.
Qed.

Lemma grid_length (max_p max_d max_q : Z) :
  List.length (grid max_p max_d max_q)
  = (Z.to_nat (max_p + 1) * (Z.to_nat (max_d + 1) * Z.to_nat (max_q + 1)))%nat.
Proof.
  unfold grid.
  rewrite (flat_map_constant_length _
             (Z.to_nat (max_d + 1) * Z.to_nat (max_q + 1))).
  - now rewrite range0_length.
  - intros p. rewrite (flat_map_constant_length _ (Z.to_nat (max_q + 1))).
    + now rewrite range0_length.
    + intros d. now rewrite length_map, range0_length.
Qed.

(** X21: the search fits every candidate once: the nested loops are one
    pass over the grid, which holds no order twice and has
    [(max_p + 1) * (max_d + 1) * (max_q + 1)] orders, 48 with the default
    bounds; with a negative bound there is no candidate and the result is
    the default order. *)
Theorem grid_search_one_pass
    (fit_aic : list float -> order -> option float) (ts : list float)
    (max_p max_d max_q : Z) :
  grid_search fit_aic ts max_p max_d max_q
  = fold_left (try_candidate fit_aic ts) (grid max_p max_d max_q) (PInf, None)
  /\ NoDup (grid max_p max_d max_q)
  /\ List.length (grid max_p max_d max_q)
     = (Z.to_nat (max_p + 1) * (Z.to_nat (max_d + 1) * Z.to_nat (max_q + 1)))%nat
  /\ List.length (grid 3 2 3) = 48%nat
  /\ (max_p < 0 \/ max_d < 0 \/ max_q < 0 ->
      find_optimal_arima_order fit_aic ts max_p max_d max_q = ARIMA_ORDER).
Proof.
  split; [apply grid_search_grid|].
  split; [apply StronglySorted_NoDup_order, grid_sorted|].
  split; [apply grid_length|]. split; [reflexivity|].
  intros Hneg. unfold find_optimal_arima_order.
  rewrite grid_search_grid.
  assert (E : grid max_p max_d max_q = []).
  { apply length_zero_iff_nil. rewrite grid_length.
    destruct Hneg as [H | [H | H]].
    - replace (Z.to_nat (max_p + 1)) with 0%nat by lia. reflexivity.
    - replace (Z.to_nat (max_d + 1)) with 0%nat by lia. lia.
    - replace (Z.to_nat (max_q + 1)) with 0%nat by lia. lia. }
  now rewrite E.
Qed.

Lemma grid_search_one_pass_witness :
  find_optimal_arima_order fit_only_111 [] 3 (-1) 3 = ARIMA_ORDER.
Proof.
  apply (proj2 (proj2 (proj2 (proj2
           (grid_search_one_pass fit_only_111 [] 3 (-1) 3))))).
  right. left. lia.
Defined.

(** ** The features of the classifier *)

Lemma apply_mask_map {A B : Type} (keep : A -> bool) (f : A -> B)
    (l : list A) :
  apply_mask (map keep l) (map f l) = map f (filter keep l).
Proof.
  unfold apply_mask. induction l as [|x l IH]; simpl; [reflexivity|].
  destruct (keep x); simpl; now rewrite IH.
Qed.

Lemma seq_increasing (n : nat) : forall a, StronglySorted lt (seq a n).
Proof.
  induction n as [|n IH]; intros a; simpl; constructor; [apply IH|].
  apply Forall_forall. intros x Hx. apply in_seq in Hx. lia.
Qed.

Lemma filter_increasing (keep : nat -> bool) (l : list nat) :
  StronglySorted lt l -> StronglySorted lt (filter keep l).
Proof.
  induction 1 as [|x l Hs IH Hall]; simpl; [constructor|].
  destruct (keep x); [|assumption]. constructor; [assumption|].
  rewrite Forall_forall in *. intros y Hy. apply filter_In in Hy.
  now apply Hall.
Qed.

(** X22: [prepare_features] raises exactly for a frame without a
    [target] column.  For a frame with one it returns the names of the
    feature columns the frame has, in their listed order, never the target,
    the future price or the price change; and it returns the rows [kept]
    of the frame, in the order of the frame, each as its cells in the
    selected columns beside its own label, where the rows kept are exactly
    the rows without a missing cell in a selected column. *)
Theorem prepare_features_aligned (df : ColumnFrame) :
  (prepare_features df = None <-> column "target" df = None)
  /\ forall target,
       column "target" df = Some target ->
       exists kept,
         prepare_features df
         = Some (map (feature_row df) kept, map (cell target) kept,
                 available_features df)
         /\ StronglySorted lt kept
         /\ (forall i, In i kept <->
                       (i < List.length target)%nat
                       /\ forall x, In x (feature_row df i) ->
                                    isnan x = false)
         /\ ~ In "target"%string (available_features df)
         /\ ~ In "future_price"%string (available_features df)
         /\ ~ In "price_change_pct"%string (available_features df).
Proof.
  split.
  { unfold prepare_features.
    destruct (column "target" df); split; intros H;
      try reflexivity; discriminate H. }
  intros target Ht.
  set (keep := fun i => negb (existsb isnan (feature_row df i))).
  exists (filter keep (seq 0 (List.length target))).
  assert (Hnot : forall name, ~ In name FEATURE_COLUMNS ->
                              ~ In name (available_features df)).
  { intros name Hn Hin. apply Hn. unfold available_features in Hin.
    apply filter_In in Hin. tauto. }
  split; [|split; [|split; [|split; [|split]]]].
  - unfold prepare_features. rewrite Ht.
    fold (available_features df).
    set (X := map _ (seq 0 (List.length target))).
    assert (EX : X = map (feature_row df) (seq 0 (List.length target))).
    { unfold X. apply map_ext. intros i. unfold feature_row, cell.
      now rewrite map_map. }
    rewrite EX, map_map.
    change (map (fun x => negb (existsb isnan (feature_row df x)))
              (seq 0 (List.length target)))
      with (map keep (seq 0 (List.length target))).
    rewrite apply_mask_map.
    assert (Ey : apply_mask (map keep (seq 0 (List.length target))) target
                 = map (cell target)
                     (filter keep (seq 0 (List.length target)))).
    { rewrite <- apply_mask_map. now rewrite map_cell_seq. }
    now rewrite Ey.
  - apply filter_increasing, seq_increasing.
  - intros i. rewrite filter_In, in_seq. unfold keep.
    rewrite negb_true_iff, existsb_false. split; intros [H1 H2]; split;
      try assumption; lia.
  - apply Hnot; simpl; intuition discriminate.
  - apply Hnot; simpl; intuition discriminate.
  - apply Hnot; simpl; intuition discriminate.
Qed.

(** A frame of three rows with the columns [close], [ma_5], [future_price]
    and [target], the second row without its [ma_5]: the first row is
    returned and the second is not. *)
Lemma prepare_features_aligned_witness :
  exists kept,
    prepare_features labelled_frame
    = Some (map (feature_row labelled_frame) kept,
            map (cell [Fin 1; Fin 0; Fin 0]) kept,
            available_features labelled_frame)
    /\ In 0%nat kept /\ ~ In 1%nat kept.
Proof.
  destruct (proj2 (prepare_features_aligned labelled_frame)
              [Fin 1; Fin 0; Fin 0] eq_refl)
    as (kept & Hrun & _ & Hin & _).
  exists kept. split; [exact Hrun|]. split.
  - apply Hin. split; [simpl; lia|].
    intros x Hx. vm_compute in Hx.
    destruct Hx as [<- | [<- | []]]; reflexivity.
  - intros H1. apply Hin in H1. destruct H1 as [_ H1].
    assert (Hnan : isnan NaN = false).
    { apply H1. vm_compute. right. now left. }
    discriminate Hnan.
Defined.

(** ** Headlines *)

Section HeadlineProperties.

Variable is_space : N -> bool.
Variable is_word : N -> bool.

Lemma sub_whitespace_runs_chars (s : list N) :
  forall in_run c,
    In c (sub_whitespace_runs is_space in_run s) ->
    c = SPACE \/ (In c s /\ is_space c = false).
Proof.
  induction s as [|x s IH]; simpl; intros in_run c Hc; [destruct Hc|].
  destruct (is_space x) eqn:E.
  - destruct in_run.
    + destruct (IH _ _ Hc) as [H | [H1 H2]]; auto.
    + destruct Hc as [<- | Hc]; [now left|].
      destruct (IH _ _ Hc) as [H | [H1 H2]]; auto.
  - destruct Hc as [<- | Hc]; [right; auto|].
    destruct (IH _ _ Hc) as [H | [H1 H2]]; auto.
Qed.

Lemma dots_are_kept_punctuation : is_kept_punctuation DOT = true.
Proof. reflexivity. Qed.

(** X23: a cleaned headline has at most 500 characters, and each of them
    is a space, one of [-.,!?] or a word character: no other character of
    the input comes through.  A text that is longer than 500 characters
    after the removals is cut to its first 497 characters and three dots. *)
Theorem clean_headline_bounded (headline : list N) :
  let text := filter (is_kept is_space is_word)
                (sub_whitespace_runs is_space false
                   (strip is_space headline)) in
  let out := clean_headline is_space is_word headline in
  (List.length out <= 500)%nat
  /\ (forall c, In c out -> clean_char is_space is_word c)
  /\ ((List.length text <= 500)%nat -> out = text)
  /\ ((500 < List.length text)%nat ->
      List.length out = 500%nat
      /\ out = firstn 497 text ++ [DOT; DOT; DOT]).
Proof.
  cbv zeta. unfold clean_headline.
  set (text := filter _ (sub_whitespace_runs is_space false _)).
  assert (Htext : forall c, In c text -> clean_char is_space is_word c).
  { intros c Hc. unfold text in Hc. apply filter_In in Hc.
    destruct Hc as [Hc Hk].
    apply sub_whitespace_runs_chars in Hc.
    destruct Hc as [-> | [_ Hs]]; [now left|].
    unfold is_kept in Hk. rewrite Hs, orb_false_r in Hk.
    apply orb_true_iff in Hk. unfold clean_char.
    destruct Hk as [Hk | Hk]; auto. }
  destruct (500 <? List.length text)%nat eqn:E.
  - apply Nat.ltb_lt in E.
    assert (Hlen : List.length (firstn 497 text ++ [DOT; DOT; DOT]) = 500%nat).
    { rewrite length_app, length_firstn. cbn [List.length]. lia. }
    split; [lia|]. split; [|split; [intros H; exfalso; lia | auto]].
    intros c Hc. apply in_app_or in Hc. destruct Hc as [Hc | Hc].
    + apply Htext. eapply In_firstn. exact Hc.
    + right. left. destruct Hc as [<- | [<- | [<- | []]]]; reflexivity.
  - apply Nat.ltb_ge in E. split; [lia|]. split; [exact Htext|].
    split; [reflexivity | intros H; exfalso; lia].
Qed.

Lemma lstrip_id (s : list N) :
  match s with [] => True | c :: _ => is_space c = false end ->
  lstrip is_space s = s.
Proof. destruct s as [|c s]; simpl; [reflexivity | now intros ->]. Qed.

Lemma single_spaced_last (s : list N) (c : N) :
  single_spaced is_space (s ++ [c]) -> is_space c = false.
Proof.
  induction s as [|x s IH]; simpl; [auto|].
  destruct (s ++ [c]) as [|y rest] eqn:E.
  - now destruct s.
  - intros [_ H]. apply IH. exact H.
Qed.

Lemma strip_id (s : list N) :
  match s with [] => True | c :: _ => is_space c = false end ->
  single_spaced is_space s ->
  strip is_space s = s.
Proof.
  intros Hfirst Hs. unfold strip. rewrite (lstrip_id s Hfirst).
  destruct s as [|x s0]; [reflexivity|].
  destruct (@exists_last N (x :: s0)) as (s' & c & E); [discriminate|].
  rewrite E in *. rewrite rev_app_distr. simpl.
  rewrite (single_spaced_last s' c Hs). simpl.
  now rewrite rev_involutive.
Qed.

Lemma single_spaced_tail (c : N) (rest : list N) :
  single_spaced is_space (c :: rest) -> single_spaced is_space rest.
Proof.
  destruct rest as [|c' rest]; [intros _; exact I|].
  intros H. change (single_spaced is_space (c :: c' :: rest))
    with ((is_space c = false \/ (c = SPACE /\ is_space c' = false))
          /\ single_spaced is_space (c' :: rest)) in H.
  tauto.
Qed.

Lemma sub_whitespace_runs_id (s : list N) :
  forall in_run,
    single_spaced is_space s ->
    (in_run = true ->
     match s with [] => True | c :: _ => is_space c = false end) ->
    sub_whitespace_runs is_space in_run s = s.
Proof.
  induction s as [|c rest IH]; intros in_run Hs Hrun; [reflexivity|].
  pose proof (single_spaced_tail c rest Hs) as Hrest.
  cbn [sub_whitespace_runs]. destruct (is_space c) eqn:E.
  - destruct in_run; [specialize (Hrun eq_refl); congruence|].
    simpl in Hs. destruct rest as [|c' rest']; [congruence|].
    destruct Hs as [[Hc | [-> Hc']] _]; [congruence|].
    f_equal. apply IH; auto.
  - f_equal. apply IH; [assumption | discriminate].
Qed.

(** X24: a headline that is already clean comes back as it is: kept
    characters only, no whitespace at either end, no whitespace but single
    spaces between other characters, and at most 500 characters. *)
Theorem clean_headline_tidy_unchanged (headline : list N) :
  tidy is_space is_word headline ->
  clean_headline is_space is_word headline = headline.
Proof.
  intros (Hkept & Hfirst & Hs & Hlen). unfold clean_headline.
  rewrite strip_id by assumption.
  rewrite sub_whitespace_runs_id by (auto; discriminate).
  rewrite filter_all by assumption.
  assert (E : (500 <? List.length headline)%nat = false)
    by (apply Nat.ltb_ge; lia).
  now rewrite E.
Qed.

End HeadlineProperties.

(** A headline of 600 letters is cut to 500 characters that end in three
    dots. *)
Lemma clean_headline_bounded_witness :
  List.length (clean_headline ascii_space ascii_word headline_long) = 500%nat
  /\ clean_headline ascii_space ascii_word headline_long
     = firstn 497 headline_long ++ [DOT; DOT; DOT].
Proof.
  apply (proj2 (proj2 (proj2
           (clean_headline_bounded ascii_space ascii_word headline_long)))).
  vm_compute. lia.
Defined.

Lemma clean_headline_tidy_unchanged_witness :
  clean_headline ascii_space ascii_word headline_up_5 = headline_up_5.
Proof.
  apply clean_headline_tidy_unchanged.
  split; [|split; [|split]].
  - intros c [<- | [<- | [<- | [<- | []]]]]; reflexivity.
  - reflexivity.
  - simpl. repeat split; auto.
  - simpl. lia.
Defined.

(** ** Short histories and fetched days *)

Lemma engineer_features_short (sqrtQ : Q -> Q) (df : list Bar) :
  (List.length df < 20)%nat -> dropna (engineer_features sqrtQ df) = [].
Proof.
  intros Hlen. unfold dropna. apply filter_none. intros f Hf.
  apply In_nth_error in Hf. destruct Hf as (i & Hi).
  destruct (engineer_features_ma_20 sqrtQ df i f Hi) as [Hlt Hma].
  assert (E : ma_20 f = NaN).
  { rewrite Hma. unfold ma. apply cell_rolling_short. lia. }
  unfold row_complete. rewrite E. simpl.
  now rewrite !andb_false_r.
Qed.

(** X25: a history of fewer than twenty bars leaves nothing to save: the
    20-day average is missing on every row of the engineered frame, and
    [save_cleaned_data] writes no row to [stocks_clean], whatever the
    database does. *)
Theorem save_cleaned_data_short_history (sqrtQ : Q -> Q) (env : Env)
    (df : list Bar) (s : string) (w : World) :
  (List.length df < 20)%nat ->
  let feats := engineer_features sqrtQ df in
  (forall f, In f feats -> ma_20 f = NaN)
  /\ stocks_clean (snd (save_cleaned_data env feats s w)) = stocks_clean w.
Proof.
  intros Hlen. cbv zeta. split.
  - intros f Hf. apply In_nth_error in Hf. destruct Hf as (i & Hi).
    destruct (engineer_features_ma_20 sqrtQ df i f Hi) as [Hlt ->].
    unfold ma. apply cell_rolling_short. lia.
  - pose proof (engineer_features_short sqrtQ df Hlen) as Hdrop.
    destruct w as [st sc rq lg].
    unfold save_cleaned_data, insert_dataframe, to_sql_append, try_except,
      bind, ret, raise, logger.
    destruct (empty (engineer_features sqrtQ df));
      cbn [negb stocks stocks_clean requests logs snd]; [reflexivity|].
    rewrite Hdrop.
    destruct (to_sql_raises env T_stocks_clean);
      cbn [stocks stocks_clean requests logs snd map]; [reflexivity|].
    unfold drop_duplicates_clean. simpl. apply app_nil_r.
Qed.

Lemma save_cleaned_data_short_history_witness :
  stocks_clean
    (snd (save_cleaned_data (env_answering 30 (Ok []))
            (engineer_features (fun q => q) rising_bars) "AAPL"
            (world_with [])))
  = [].
Proof.
  apply (proj2 (save_cleaned_data_short_history (fun q => q)
                  (env_answering 30 (Ok [])) rising_bars "AAPL"
                  (world_with []) ltac:(simpl; lia))).
Defined.

(** X26: a sync that gets rows from the provider and a database that
    takes them stores every fetched day: for each row of the provider's
    answer [stocks] then holds a row of the symbol with that date. *)
Theorem update_stock_data_stores_fetched (env : Env) (s : string)
    (force : bool) (w : World) (k : Z) (data : list Bar) (r : Bar) :
  to_sql_raises env T_stocks = false ->
  spec_window env s force w = Some k ->
  provider env s (today env - k) (today env + 1) = Ok data ->
  In r data ->
  let out := update_stock_data env s force w in
  fst out = Ok true
  /\ In (s, date r) (map key (stocks (snd out))).
Proof.
  intros Hsql Hk Hp Hr. cbv zeta.
  destruct (update_stock_data_run env s force w)
    as (b & w1 & -> & _ & _ & Hw). cbn [fst snd].
  rewrite Hk, Hp, Hsql in Hw. destruct Hw as [_ Hw].
  destruct data as [|x data]; [destruct Hr|].
  destruct Hw as [-> ->]. split; [reflexivity|].
  rewrite map_app. apply in_or_app. right.
  apply drop_duplicates_from_keeps_keys; [|intros []].
  apply in_map_iff. exists (set_symbol s r). split; [reflexivity|].
  now apply in_map.
Qed.

Lemma update_stock_data_stores_fetched_witness :
  let out := update_stock_data
               (env_answering 10 (Ok [sample_bar 9; sample_bar 10]))
               "AAPL" false (world_with [sample_bar 7]) in
  fst out = Ok true
  /\ In ("AAPL"%string, 10) (map key (stocks (snd out))).
Proof.
  apply (update_stock_data_stores_fetched
           (env_answering 10 (Ok [sample_bar 9; sample_bar 10])) "AAPL" false
           (world_with [sample_bar 7]) 5 [sample_bar 9; sample_bar 10]
           (sample_bar 10)); try reflexivity.
  right. now left.
Defined.
